(** * flask_cqlalchemy: the connection-lifecycle manager

    A shallow embedding of [flask_cqlalchemy/__init__.py]: the [CQLAlchemy]
    class (constructor, [init_app], [shutdown_connection], [setup_connection],
    [sync_db], [set_keyspace]), the [NoConfig] exception and the helpers
    [flatten] and [get_subclasses].

    Python objects that the methods mutate (the manager [self], the driver's
    module globals, the signal registries) live in an explicit [state] that is
    threaded through a small state-and-exception monad; what a method only
    reads (the names bound by the module's import statements, the loaded
    classes, which optional packages are importable) is an [env]. Every call
    into the driver is also recorded in a trace, so that "invokes" and "is
    called once" can be stated. *)

From stdpp Require Import gmap strings list.

Open Scope string_scope.
Open Scope list_scope.
Set Warnings "-clear-no-such-hyp".

(** ** Values *)

(** A class object, named by its position in the table of loaded classes. *)
Abbreviation cls := nat.

(** A driver object (cluster client or session), named by the number of the
    [connection.setup] call that created it. *)
Abbreviation handle := nat.

(** What the code reads of a mapped-model class: [cls.__abstract__] and
    [cls.__subclasses__()]. *)
Record pyclass := {
  __name__ : string;
  __abstract__ : bool;
  __subclasses__ : list cls
}.

(** [app.config], restricted to the six keys the extension reads. [None] is an
    absent key. *)
Record Config := {
  CASSANDRA_HOSTS : option (list string);
  CASSANDRA_KEYSPACE : option string;
  CASSANDRA_CONSISTENCY : option Z;
  CASSANDRA_LAZY_CONNECT : option bool;
  CASSANDRA_RETRY_CONNECT : option bool;
  CASSANDRA_SETUP_KWARGS : option (list (string * string))
}.

Record flask_app := { config : Config }.

(** Python truthiness of the two kinds of value the code tests. *)
Definition truthy_list {A} (l : list A) : bool :=
  match l with [] => false | _ :: _ => true end.

Definition truthy_str (s : string) : bool :=
  match s with EmptyString => false | String _ _ => true end.

(** Truthiness of an optional argument: Python's [None] is falsy. *)
Definition truthy_arg (a : option string) : bool :=
  match a with None => false | Some s => truthy_str s end.

(** ** Exceptions *)

Inductive exn :=
| KeyError (key : string)          (* app.config[key] on an absent key *)
| AttributeError (attr : string)   (* reading an attribute that is not there *)
| NoConfig                         (* class NoConfig(Exception) *)
| RecursionError                   (* get_subclasses ran out of stack *)
| TypeError (key : string).        (* a call got keyword [key] twice *)

Inductive result (A : Type) :=
| Ok (a : A)
| Raise (e : exn).
Arguments Ok {A} a.
Arguments Raise {A} e.

(** ** The manager object *)

(** The attributes of a [CQLAlchemy] instance that its methods read or write.
    [app] and [Model] are bound by the constructor; the six configuration
    attributes exist only once [init_app] has assigned them ([None]: the
    attribute is not there, reading it raises [AttributeError]). The
    constructor's other attributes ([columns], [UserType], [sync_table],
    [sync_type], [create_keyspace_simple]) are constant references to driver
    objects and are never read by a method. *)
Record CQLAlchemy := {
  app : option flask_app;
  Model : cls;
  _hosts_ : option (list string);
  _keyspace_ : option string;
  _consistency : option Z;
  _lazy_connect : option bool;
  _retry_connect : option bool;
  _setup_kwargs : option (list (string * string))
}.

Definition set_app (v : option flask_app) (m : CQLAlchemy) : CQLAlchemy :=
  {| app := v; Model := Model m; _hosts_ := _hosts_ m;
     _keyspace_ := _keyspace_ m; _consistency := _consistency m;
     _lazy_connect := _lazy_connect m; _retry_connect := _retry_connect m;
     _setup_kwargs := _setup_kwargs m |}.

Definition set_hosts (v : list string) (m : CQLAlchemy) : CQLAlchemy :=
  {| app := app m; Model := Model m; _hosts_ := Some v;
     _keyspace_ := _keyspace_ m; _consistency := _consistency m;
     _lazy_connect := _lazy_connect m; _retry_connect := _retry_connect m;
     _setup_kwargs := _setup_kwargs m |}.

Definition set_keyspace_attr (v : string) (m : CQLAlchemy) : CQLAlchemy :=
  {| app := app m; Model := Model m; _hosts_ := _hosts_ m;
     _keyspace_ := Some v; _consistency := _consistency m;
     _lazy_connect := _lazy_connect m; _retry_connect := _retry_connect m;
     _setup_kwargs := _setup_kwargs m |}.

Definition set_consistency (v : Z) (m : CQLAlchemy) : CQLAlchemy :=
  {| app := app m; Model := Model m; _hosts_ := _hosts_ m;
     _keyspace_ := _keyspace_ m; _consistency := Some v;
     _lazy_connect := _lazy_connect m; _retry_connect := _retry_connect m;
     _setup_kwargs := _setup_kwargs m |}.

Definition set_lazy_connect (v : bool) (m : CQLAlchemy) : CQLAlchemy :=
  {| app := app m; Model := Model m; _hosts_ := _hosts_ m;
     _keyspace_ := _keyspace_ m; _consistency := _consistency m;
     _lazy_connect := Some v; _retry_connect := _retry_connect m;
     _setup_kwargs := _setup_kwargs m |}.

Definition set_retry_connect (v : bool) (m : CQLAlchemy) : CQLAlchemy :=
  {| app := app m; Model := Model m; _hosts_ := _hosts_ m;
     _keyspace_ := _keyspace_ m; _consistency := _consistency m;
     _lazy_connect := _lazy_connect m; _retry_connect := Some v;
     _setup_kwargs := _setup_kwargs m |}.

Definition set_setup_kwargs (v : list (string * string)) (m : CQLAlchemy)
  : CQLAlchemy :=
  {| app := app m; Model := Model m; _hosts_ := _hosts_ m;
     _keyspace_ := _keyspace_ m; _consistency := _consistency m;
     _lazy_connect := _lazy_connect m; _retry_connect := _retry_connect m;
     _setup_kwargs := Some v |}.

(** ** The driver *)

(** The arguments of one [connection.setup] call. *)
Record setup_args := {
  hosts : list string;
  default_keyspace : string;
  consistency : Z;
  lazy_connect : bool;
  retry_connect : bool;
  kwargs : list (string * string)
}.

(** Modelled from the spec: the driver ([cassandra.cqlengine]) is an external
    library, none of it is in this repository. Its state is what the spec
    names: the process-wide connection singleton (a cluster client and a
    session, [connection.cluster] and [connection.session]), the mutable
    default keyspace of the mapping layer ([models.DEFAULT_KEYSPACE]), and
    which cluster clients and sessions are live, that is created and not yet
    shut down. [next_handle] numbers the objects [connection.setup] creates. *)
Record driver := {
  conn_cluster : option handle;
  conn_session : option handle;
  DEFAULT_KEYSPACE : option string;
  live_clusters : gset handle;
  live_sessions : gset handle;
  next_handle : handle
}.

(** Callbacks the extension hands to the host frameworks: the three closures
    over [self] that [init_app] defines. *)
Inductive hook :=
| cassandra_init_uwsgi
| cassandra_init_celery
| cassandra_shutdown_celery.

(** What [init_app] has handed to the two optional frameworks, in order: the
    functions given to uWSGI's [postfork] decorator and to the [connect]
    method of Celery's three signals. The frameworks are not part of this
    repository; how long one of them keeps a callback it was handed is its
    own business and is not modelled. *)
Record signals := {
  postfork : list hook;
  worker_process_init : list hook;
  worker_shutting_down : list hook;
  beat_init : list hook
}.

(** ** State, environment, trace *)

Record state := {
  self : CQLAlchemy;
  drv : driver;
  sig : signals
}.

(** What the methods read and never write. [cluster] and [session] are the two
    names that line 13, [from cassandra.cqlengine.connection import cluster,
    session], binds in the extension's own module: the import copies the
    values the driver's globals have at that moment, and no statement of the
    module rebinds them. *)
Record env := {
  cluster : option handle;
  session : option handle;
  models_Model : cls;
  classes : list pyclass;
  uwsgi_installed : bool;
  celery_installed : bool
}.

(** Calls into the driver, in the order they are made. *)
Inductive call :=
| ClusterShutdown (h : handle)
| SessionShutdown (h : handle)
| ConnectionSetup (a : setup_args) (h : handle)
| SyncTable (c : cls).

(** ** The monad: state, exceptions, call trace *)

Definition M (A : Type) : Type := state → result A * state * list call.

Definition ret {A} (a : A) : M A := λ s, (Ok a, s, []).

Definition bind {A B} (c : M A) (k : A → M B) : M B := λ s,
  match c s with
  | (Ok a, s1, t1) =>
      match k a s1 with (r, s2, t2) => (r, s2, t1 ++ t2) end
  | (Raise e, s1, t1) => (Raise e, s1, t1)
  end.

Definition raise {A} (e : exn) : M A := λ s, (Raise e, s, []).

Notation "'let*' x := c 'in' k" := (bind c (λ x, k))
  (at level 10, x name, c at level 100, k at level 200).
Notation "c >> k" := (bind c (λ _, k))
  (at level 100, k at level 200, right associativity).

Definition outcome {A} (r : result A * state * list call) : result A := r.1.1.
Definition final {A} (r : result A * state * list call) : state := r.1.2.
Definition trace {A} (r : result A * state * list call) : list call := r.2.

Definition get_self : M CQLAlchemy := λ s, (Ok (self s), s, []).

Definition modify_self (f : CQLAlchemy → CQLAlchemy) : M unit := λ s,
  (Ok tt, {| self := f (self s); drv := drv s; sig := sig s |}, []).

Definition modify_drv (f : driver → driver) : M unit := λ s,
  (Ok tt, {| self := self s; drv := f (drv s); sig := sig s |}, []).

Definition modify_sig (f : signals → signals) : M unit := λ s,
  (Ok tt, {| self := self s; drv := drv s; sig := f (sig s) |}, []).

Definition emit (c : call) : M unit := λ s, (Ok tt, s, [c]).

(** [d[key]] on a dictionary: [KeyError] when the key is absent. *)
Definition getitem {A} (key : string) (v : option A) : M A :=
  match v with Some a => ret a | None => raise (KeyError key) end.

(** [self.attr]: [AttributeError] when the attribute was never assigned. *)
Definition getattr {A} (attr : string) (f : CQLAlchemy → option A) : M A :=
  let* m := get_self in
  match f m with Some a => ret a | None => raise (AttributeError attr) end.

(** [for x in l: body(x)]. *)
Fixpoint for_each {A} (body : A → M unit) (l : list A) : M unit :=
  match l with
  | [] => ret tt
  | x :: l' => body x >> for_each body l'
  end.

(** ** Driver operations *)

(** Modelled from the spec: [client.shutdown()] releases the cluster client.
    It is no longer live afterwards; the driver's globals keep referring to
    it. Shutting down an object that is already shut down has no effect. *)
Definition Cluster_shutdown (h : handle) : M unit :=
  emit (ClusterShutdown h) >>
  modify_drv (λ d,
    {| conn_cluster := conn_cluster d; conn_session := conn_session d;
       DEFAULT_KEYSPACE := DEFAULT_KEYSPACE d;
       live_clusters := live_clusters d ∖ {[h]};
       live_sessions := live_sessions d;
       next_handle := next_handle d |}).

(** Modelled from the spec: [session.shutdown()], as [Cluster_shutdown]. *)
Definition Session_shutdown (h : handle) : M unit :=
  emit (SessionShutdown h) >>
  modify_drv (λ d,
    {| conn_cluster := conn_cluster d; conn_session := conn_session d;
       DEFAULT_KEYSPACE := DEFAULT_KEYSPACE d;
       live_clusters := live_clusters d;
       live_sessions := live_sessions d ∖ {[h]};
       next_handle := next_handle d |}).

(** Modelled from the spec: [connection.setup(hosts, keyspace, consistency,
    lazy_connect, retry_connect, **extra)] opens a new cluster client and a
    new session and makes them the process-wide singleton. It does nothing to
    the objects the singleton held before. *)
Definition connection_setup (a : setup_args) : M unit := λ s,
  let h := next_handle (drv s) in
  (emit (ConnectionSetup a h) >>
   modify_drv (λ d,
     {| conn_cluster := Some h; conn_session := Some h;
        DEFAULT_KEYSPACE := DEFAULT_KEYSPACE d;
        live_clusters := {[h]} ∪ live_clusters d;
        live_sessions := {[h]} ∪ live_sessions d;
        next_handle := S h |})) s.

(** Modelled from the spec: [sync_table(model)], the driver's
    table-synchronization routine; only the call is recorded. *)
Definition sync_table (model : cls) : M unit := emit (SyncTable model).

(** The assignment [models.DEFAULT_KEYSPACE = name]. *)
Definition assign_DEFAULT_KEYSPACE (name : string) : M unit :=
  modify_drv (λ d,
    {| conn_cluster := conn_cluster d; conn_session := conn_session d;
       DEFAULT_KEYSPACE := Some name;
       live_clusters := live_clusters d;
       live_sessions := live_sessions d;
       next_handle := next_handle d |}).

(** [signal.connect(f)] and the [@postfork] decorator: append to a registry. *)
Definition register_postfork (f : hook) : M unit :=
  modify_sig (λ g,
    {| postfork := postfork g ++ [f];
       worker_process_init := worker_process_init g;
       worker_shutting_down := worker_shutting_down g;
       beat_init := beat_init g |}).

Definition worker_process_init_connect (f : hook) : M unit :=
  modify_sig (λ g,
    {| postfork := postfork g;
       worker_process_init := worker_process_init g ++ [f];
       worker_shutting_down := worker_shutting_down g;
       beat_init := beat_init g |}).

Definition worker_shutting_down_connect (f : hook) : M unit :=
  modify_sig (λ g,
    {| postfork := postfork g;
       worker_process_init := worker_process_init g;
       worker_shutting_down := worker_shutting_down g ++ [f];
       beat_init := beat_init g |}).

Definition beat_init_connect (f : hook) : M unit :=
  modify_sig (λ g,
    {| postfork := postfork g;
       worker_process_init := worker_process_init g;
       worker_shutting_down := worker_shutting_down g;
       beat_init := beat_init g ++ [f] |}).

(** The environment a process has when it imports the extension's module while
    the driver is in state [d]: line 13 copies the driver's two globals. *)
Definition import_module (d : driver) (base : cls) (tbl : list pyclass)
    (uwsgi celery : bool) : env :=
  {| cluster := conn_cluster d; session := conn_session d;
     models_Model := base; classes := tbl;
     uwsgi_installed := uwsgi; celery_installed := celery |}.

(** The driver of a process that has not connected yet. *)
Definition fresh_driver : driver :=
  {| conn_cluster := None; conn_session := None; DEFAULT_KEYSPACE := None;
     live_clusters := ∅; live_sessions := ∅; next_handle := 0 |}.

Definition no_signals : signals :=
  {| postfork := []; worker_process_init := [];
     worker_shutting_down := []; beat_init := [] |}.

(** ** Helper functions of the module *)

(** [flatten(lists)]: [[item for sublist in lists for item in sublist]]. *)
Fixpoint flatten {A} (lists : list (list A)) : list A :=
  match lists with
  | [] => []
  | sublist :: lists' => sublist ++ flatten lists'
  end.

(** [get_subclasses(cls)]. The recursion follows [__subclasses__()]; [depth]
    bounds the number of nested calls ([None]: the bound was reached, or [c]
    is not a loaded class). *)
Fixpoint get_subclasses (tbl : list pyclass) (depth : nat) (c : cls)
  : option (list cls) :=
  match depth with
  | 0 => None
  | S depth' =>
      match tbl !! c with
      | None => None
      | Some ci =>
          if __abstract__ ci then
            flatten <$> mapM (get_subclasses tbl depth') (__subclasses__ ci)
          else Some [c]
      end
  end.

(** The keywords that the call in [setup_connection] writes out beside the
    spread of [self._setup_kwargs]. *)
Definition explicit_keywords : list string :=
  ["consistency"; "lazy_connect"; "retry_connect"].

(** A call [f(..., k=v, **bag)]: Python merges the bag into the keywords
    written out and, for the first key of the bag that is also written out,
    raises [TypeError] at the call, before the callee is entered. [None]: the
    bag holds no such key. What the callee makes of the other names is the
    driver's business. *)
Fixpoint colliding_key (bag : list (string * string)) : option string :=
  match bag with
  | [] => None
  | (key, _) :: bag' =>
      if existsb (String.eqb key) explicit_keywords then Some key
      else colliding_key bag'
  end.

(** ** Methods of [CQLAlchemy] *)

Section Methods.
Context (E : env).

(** [shutdown_connection]: the two tests read the module's own names
    [cluster] and [session]. *)
Definition shutdown_connection : M unit :=
  (match cluster E with
   | Some c => Cluster_shutdown c
   | None => ret tt
   end) >>
  (match session E with
   | Some s => Session_shutdown s
   | None => ret tt
   end).

(** [setup_connection]. The call spreads [self._setup_kwargs] beside three
    keywords written out: a bag that holds one of them stops the call with
    [TypeError] once the arguments are evaluated, before [connection.setup]
    is entered. *)
Definition setup_connection : M unit :=
  shutdown_connection >>
  let* h := getattr "_hosts_" _hosts_ in
  let* k := getattr "_keyspace_" _keyspace_ in
  let* c := getattr "_consistency" _consistency in
  let* l := getattr "_lazy_connect" _lazy_connect in
  let* r := getattr "_retry_connect" _retry_connect in
  let* kw := getattr "_setup_kwargs" _setup_kwargs in
  match colliding_key kw with
  | Some key => raise (TypeError key)
  | None =>
      connection_setup
        {| hosts := h; default_keyspace := k; consistency := c;
           lazy_connect := l; retry_connect := r; kwargs := kw |}
  end.

(** What a registered callback does when its framework calls it. *)
Definition fire (f : hook) : M unit :=
  match f with
  | cassandra_init_uwsgi => setup_connection
  | cassandra_init_celery => setup_connection
  | cassandra_shutdown_celery => shutdown_connection
  end.

Definition init_app (a : flask_app) : M unit :=
  let* v := getitem "CASSANDRA_HOSTS" (CASSANDRA_HOSTS (config a)) in
  modify_self (set_hosts v) >>
  let* v := getitem "CASSANDRA_KEYSPACE" (CASSANDRA_KEYSPACE (config a)) in
  modify_self (set_keyspace_attr v) >>
  modify_self
    (set_consistency (default 1%Z (CASSANDRA_CONSISTENCY (config a)))) >>
  modify_self
    (set_lazy_connect (default false (CASSANDRA_LAZY_CONNECT (config a)))) >>
  modify_self
    (set_retry_connect (default false (CASSANDRA_RETRY_CONNECT (config a)))) >>
  modify_self
    (set_setup_kwargs (default [] (CASSANDRA_SETUP_KWARGS (config a)))) >>
  let* h := getattr "_hosts_" _hosts_ in
  let* k := getattr "_keyspace_" _keyspace_ in
  if negb (truthy_list h) && truthy_str k then raise NoConfig
  else
    (if uwsgi_installed E then register_postfork cassandra_init_uwsgi
     else ret tt) >>
    (if celery_installed E then
       worker_process_init_connect cassandra_init_celery >>
       worker_shutting_down_connect cassandra_shutdown_celery >>
       beat_init_connect cassandra_init_celery
     else ret tt) >>
    setup_connection.

(** The constructor body, run on a new object: it has no attribute yet. *)
Definition __init__ (a : option flask_app) : M unit :=
  modify_self (λ _,
    {| app := a; Model := models_Model E; _hosts_ := None;
       _keyspace_ := None; _consistency := None; _lazy_connect := None;
       _retry_connect := None; _setup_kwargs := None |}) >>
  match a with
  | Some a' => init_app a'
  | None => ret tt
  end.

(** The expression [CQLAlchemy(app)]: it has a value only if [__init__]
    returns. *)
Definition new_CQLAlchemy (a : option flask_app) : M CQLAlchemy :=
  __init__ a >> get_self.

Definition sync_db : M unit :=
  let* m := get_self in
  match get_subclasses (classes E) (S (length (classes E))) (Model m) with
  | Some models => for_each sync_table models
  | None => raise RecursionError
  end.

(** [self.app.config['CASSANDRA_KEYSPACE']]. *)
Definition self_app_config_keyspace : M string :=
  let* m := get_self in
  match app m with
  | None => raise (AttributeError "config")
  | Some a => getitem "CASSANDRA_KEYSPACE" (CASSANDRA_KEYSPACE (config a))
  end.

Definition set_keyspace (keyspace_name : option string) : M unit :=
  let* keyspace_name :=
    match keyspace_name with
    | Some n => if negb (truthy_str n) then self_app_config_keyspace else ret n
    | None => self_app_config_keyspace
    end in
  assign_DEFAULT_KEYSPACE keyspace_name >>
  modify_self (set_keyspace_attr keyspace_name).

End Methods.

(** ** Sequences of method calls *)

(** One call of a method of the manager by its owner, or of a registered
    callback by its framework. *)
Inductive method_call :=
| call_init_app (a : flask_app)
| call_shutdown_connection
| call_setup_connection
| call_sync_db
| call_set_keyspace (keyspace_name : option string)
| call_hook (f : hook).

Definition invoke (E : env) (c : method_call) : M unit :=
  match c with
  | call_init_app a => init_app E a
  | call_shutdown_connection => shutdown_connection E
  | call_setup_connection => setup_connection E
  | call_sync_db => sync_db E
  | call_set_keyspace n => set_keyspace n
  | call_hook f => fire E f
  end.

(** A sequence of calls, each caller going on whether or not the call before
    raised: the state at the end and the driver calls made on the way. *)
Fixpoint run (E : env) (cs : list method_call) (s : state)
  : state * list call :=
  match cs with
  | [] => (s, [])
  | c :: cs' =>
      let r := invoke E c s in
      let '(s', t) := run E cs' (final r) in
      (s', trace r ++ t)
  end.

(** The calls that assign the keyspace: [init_app] and [set_keyspace]. *)
Definition assigns_keyspace (c : method_call) : bool :=
  match c with
  | call_init_app _ | call_set_keyspace _ => true
  | _ => false
  end.

(** ** Predicates on states and class tables *)

(** The objects the module's names [cluster] and [session] refer to were
    created before now: their numbers are below the next one the driver
    hands out. *)
Definition imported_before (E : env) (d : driver) : Prop :=
  (∀ h, cluster E = Some h → h < next_handle d) ∧
  (∀ h, session E = Some h → h < next_handle d).

(** Python creates a class after its bases: every direct subclass has a
    larger index than its base, and is loaded. Checked from index [c] on. *)
Fixpoint classes_in_order_from (n : nat) (c : cls) (l : list pyclass) : bool :=
  match l with
  | [] => true
  | ci :: l' =>
      forallb (λ d, (c <? d)%nat && (d <? n)%nat) (__subclasses__ ci)
      && classes_in_order_from n (S c) l'
  end.

Definition classes_in_order (tbl : list pyclass) : bool :=
  classes_in_order_from (length tbl) 0 tbl.

(** [d] is a subclass of [c], directly or through other classes. *)
Inductive subclass_of (tbl : list pyclass) : cls → cls → Prop :=
| subclass_direct c ci d :
    tbl !! c = Some ci → d ∈ __subclasses__ ci → subclass_of tbl c d
| subclass_trans c d e :
    subclass_of tbl c d → subclass_of tbl d e → subclass_of tbl c e.

Definition concrete (tbl : list pyclass) (c : cls) : Prop :=
  ∃ ci, tbl !! c = Some ci ∧ __abstract__ ci = false.

(** A chain of direct-subclass steps from [c] to [e] on which every class
    before [e] is abstract; the list holds the classes after [c]. *)
Inductive abstract_path (tbl : list pyclass) : cls → list cls → cls → Prop :=
| abstract_path_here c : abstract_path tbl c [] c
| abstract_path_step c ci d p e :
    tbl !! c = Some ci → __abstract__ ci = true → d ∈ __subclasses__ ci →
    abstract_path tbl d p e → abstract_path tbl c (d :: p) e.

(** ** Example data *)

Definition mk_config (h : option (list string)) (k : option string) : Config :=
  {| CASSANDRA_HOSTS := h; CASSANDRA_KEYSPACE := k;
     CASSANDRA_CONSISTENCY := None; CASSANDRA_LAZY_CONNECT := None;
     CASSANDRA_RETRY_CONNECT := None; CASSANDRA_SETUP_KWARGS := None |}.

(** The configuration of the spec's scenario. *)
Definition app_ks1 : flask_app :=
  {| config := mk_config (Some ["10.0.0.1"]) (Some "ks1") |}.

(** Empty host list with a keyspace, and with an empty keyspace. *)
Definition app_no_hosts : flask_app :=
  {| config := mk_config (Some []) (Some "ks1") |}.

Definition app_nothing : flask_app :=
  {| config := mk_config (Some []) (Some "") |}.

Definition mk_class (n : string) (a : bool) (subs : list cls) : pyclass :=
  {| __name__ := n; __abstract__ := a; __subclasses__ := subs |}.

(** The spec's example: abstract [A] with concrete [B] and [C], and concrete
    [D] directly under the base. *)
Definition classes_spec : list pyclass :=
  [ mk_class "Model" true [1; 4];
    mk_class "A" true [2; 3];
    mk_class "B" false [];
    mk_class "C" false [];
    mk_class "D" false [] ].

(** A concrete model with a concrete subclass. *)
Definition classes_nested : list pyclass :=
  [ mk_class "Model" true [1];
    mk_class "D" false [2];
    mk_class "E" false [] ].

(** A diamond: concrete [C] under the two abstract classes [A1] and [A2]. *)
Definition classes_diamond : list pyclass :=
  [ mk_class "Model" true [1; 2];
    mk_class "A1" true [3];
    mk_class "A2" true [3];
    mk_class "C" false [] ].

(** An object on which no method has run. *)
Definition new_object : CQLAlchemy :=
  {| app := None; Model := 0; _hosts_ := None; _keyspace_ := None;
     _consistency := None; _lazy_connect := None; _retry_connect := None;
     _setup_kwargs := None |}.

(** A process that imported the extension before any connection was made. *)
Definition env_fresh (tbl : list pyclass) : env :=
  import_module fresh_driver 0 tbl false false.

Definition state_fresh : state :=
  {| self := new_object; drv := fresh_driver; sig := no_signals |}.

(** The state after [db = CQLAlchemy(app)] for the scenario's configuration. *)
Definition state_bound : state :=
  final (new_CQLAlchemy (env_fresh classes_spec) (Some app_ks1) state_fresh).

(** A configuration that sets every optional key. *)
Definition app_full : flask_app :=
  {| config :=
       {| CASSANDRA_HOSTS := Some ["10.0.0.1"; "10.0.0.2"];
          CASSANDRA_KEYSPACE := Some "ks1";
          CASSANDRA_CONSISTENCY := Some 6%Z;
          CASSANDRA_LAZY_CONNECT := Some true;
          CASSANDRA_RETRY_CONNECT := Some true;
          CASSANDRA_SETUP_KWARGS := Some [("port", "9042")] |} |}.

(** A configuration whose bag of extra options repeats a keyword that the
    connect call writes out. *)
Definition app_colliding : flask_app :=
  {| config :=
       {| CASSANDRA_HOSTS := Some ["10.0.0.1"];
          CASSANDRA_KEYSPACE := Some "ks1";
          CASSANDRA_CONSISTENCY := None;
          CASSANDRA_LAZY_CONNECT := None;
          CASSANDRA_RETRY_CONNECT := None;
          CASSANDRA_SETUP_KWARGS := Some [("port", "9042");
                                          ("consistency", "2")] |} |}.

(** A configuration without the keyspace key. *)
Definition app_no_keyspace_key : flask_app :=
  {| config := mk_config (Some ["10.0.0.1"]) None |}.

(** A process that imported the extension when the connection of
    [state_bound] already existed, with both optional frameworks installed:
    the module's names refer to handle 0. *)
Definition env_late : env :=
  import_module (drv state_bound) 0 classes_spec true true.

(** A manager that was never bound, in the process of [state_bound]. *)
Definition state_unbound : state :=
  {| self := new_object; drv := drv state_bound; sig := no_signals |}.

(** [state_bound] after [db.set_keyspace()]: the default keyspace is the
    configured one. *)
Definition state_default_keyspace : state :=
  final (set_keyspace None state_bound).

(** All models directly under the base, all concrete. *)
Definition classes_flat : list pyclass :=
  [ mk_class "Model" true [1; 2; 3];
    mk_class "User" false [];
    mk_class "Post" false [];
    mk_class "Tag" false [] ].

(** ** The effect of the two connection procedures, in closed form *)

(** The driver calls [shutdown_connection] makes: they are fixed by the
    environment. *)
Definition shutdown_calls (E : env) : list call :=
  match cluster E with Some c => [ClusterShutdown c] | None => [] end ++
  match session E with Some s => [SessionShutdown s] | None => [] end.

(** The driver after [shutdown_connection]. *)
Definition released (E : env) (d : driver) : driver :=
  {| conn_cluster := conn_cluster d; conn_session := conn_session d;
     DEFAULT_KEYSPACE := DEFAULT_KEYSPACE d;
     live_clusters :=
       match cluster E with
       | Some c => live_clusters d ∖ {[c]}
       | None => live_clusters d
       end;
     live_sessions :=
       match session E with
       | Some s => live_sessions d ∖ {[s]}
       | None => live_sessions d
       end;
     next_handle := next_handle d |}.

(** The arguments [setup_connection] passes to the driver, when all six
    attributes are there. *)
Definition connect_args (m : CQLAlchemy) : option setup_args :=
  h ← _hosts_ m; k ← _keyspace_ m; c ← _consistency m;
  l ← _lazy_connect m; r ← _retry_connect m; kw ← _setup_kwargs m;
  Some {| hosts := h; default_keyspace := k; consistency := c;
          lazy_connect := l; retry_connect := r; kwargs := kw |}.

(** The state after the two assignments that end [set_keyspace]. *)
Definition keyspace_assigned (n : string) (s : state) : state :=
  {| self := set_keyspace_attr n (self s);
     drv := {| conn_cluster := conn_cluster (drv s);
               conn_session := conn_session (drv s);
               DEFAULT_KEYSPACE := Some n;
               live_clusters := live_clusters (drv s);
               live_sessions := live_sessions (drv s);
               next_handle := next_handle (drv s) |};
     sig := sig s |}.

(** The attribute whose absence stops [setup_connection]: the first of the
    six, in the order the call reads them, that is not there. *)
Definition first_missing (m : CQLAlchemy) : string :=
  match _hosts_ m, _keyspace_ m, _consistency m, _lazy_connect m,
        _retry_connect m with
  | None, _, _, _, _ => "_hosts_"
  | _, None, _, _, _ => "_keyspace_"
  | _, _, None, _, _ => "_consistency"
  | _, _, _, None, _ => "_lazy_connect"
  | _, _, _, _, None => "_retry_connect"
  | _, _, _, _, _ => "_setup_kwargs"
  end.

(** The driver after a [connection.setup] that follows a
    [shutdown_connection]. *)
Definition reconnected (E : env) (d : driver) : driver :=
  {| conn_cluster := Some (next_handle d);
     conn_session := Some (next_handle d);
     DEFAULT_KEYSPACE := DEFAULT_KEYSPACE d;
     live_clusters := {[next_handle d]} ∪ live_clusters (released E d);
     live_sessions := {[next_handle d]} ∪ live_sessions (released E d);
     next_handle := S (next_handle d) |}.

(** The manager after the six assignments of [init_app]. *)
Definition configured (a : flask_app) (h : list string) (k : string)
    (m : CQLAlchemy) : CQLAlchemy :=
  {| app := app m; Model := Model m; _hosts_ := Some h; _keyspace_ := Some k;
     _consistency := Some (default 1%Z (CASSANDRA_CONSISTENCY (config a)));
     _lazy_connect :=
       Some (default false (CASSANDRA_LAZY_CONNECT (config a)));
     _retry_connect :=
       Some (default false (CASSANDRA_RETRY_CONNECT (config a)));
     _setup_kwargs := Some (default [] (CASSANDRA_SETUP_KWARGS (config a))) |}.

(** The registries after the registrations of [init_app]. *)
Definition registered (E : env) (g : signals) : signals :=
  {| postfork :=
       if uwsgi_installed E then postfork g ++ [cassandra_init_uwsgi]
       else postfork g;
     worker_process_init :=
       if celery_installed E
       then worker_process_init g ++ [cassandra_init_celery]
       else worker_process_init g;
     worker_shutting_down :=
       if celery_installed E
       then worker_shutting_down g ++ [cassandra_shutdown_celery]
       else worker_shutting_down g;
     beat_init :=
       if celery_installed E then beat_init g ++ [cassandra_init_celery]
       else beat_init g |}.

(** How often a class occurs in a discovery result, and how often
    [sync_table] is called on it in a trace. *)
Definition times (x : cls) (l : list cls) : nat := count_occ Nat.eq_dec l x.

Definition table_syncs (x : cls) (t : list call) : nat :=
  length (List.filter
            (λ e, match e with SyncTable c => (c =? x)%nat | _ => false end) t).

(** * Properties *)

Section Properties.
Context (E : env).

(** ** The disconnect procedure *)

Lemma shutdown_connection_eq (s : state) :
  shutdown_connection E s
  = (Ok tt, {| self := self s; drv := released E (drv s); sig := sig s |},
     shutdown_calls E).
Proof.
  unfold shutdown_connection, shutdown_calls, released.
  destruct s as [m [cc cs dk lc ls n] g].
  destruct (cluster E), (session E); reflexivity.
Qed.

Lemma released_idemp (d : driver) : released E (released E d) = released E d.
Proof.
  unfold released; destruct d as [cc cs dk lc ls n]; simpl.
  f_equal; [destruct (cluster E) | destruct (session E)];
    try reflexivity; set_solver.
Qed.

Lemma released_nothing_live (d : driver) :
  live_clusters d = ∅ → live_sessions d = ∅ → released E d = d.
Proof.
  unfold released; destruct d as [cc cs dk lc ls n]; simpl.
  intros -> ->.
  f_equal; [destruct (cluster E) | destruct (session E)];
    try reflexivity; set_solver.
Qed.

(** ** The connect procedure *)

Lemma setup_connection_eq (s : state) (a : setup_args) :
  connect_args (self s) = Some a → colliding_key (kwargs a) = None →
  setup_connection E s
  = (Ok tt, {| self := self s; drv := reconnected E (drv s); sig := sig s |},
     shutdown_calls E ++ [ConnectionSetup a (next_handle (drv s))]).
Proof.
  intros Ha Hk. unfold setup_connection, bind.
  rewrite shutdown_connection_eq.
  destruct s as [[ap md [h|] [k|] [c|] [l|] [r|] [kw|]] d g];
    simpl in Ha; try discriminate.
  injection Ha as <-. simpl in Hk. cbn -[released shutdown_calls reconnected].
  rewrite Hk. reflexivity.
Qed.

Lemma setup_connection_collides (s : state) (a : setup_args) (key : string) :
  connect_args (self s) = Some a → colliding_key (kwargs a) = Some key →
  setup_connection E s
  = (Raise (TypeError key),
     {| self := self s; drv := released E (drv s); sig := sig s |},
     shutdown_calls E).
Proof.
  intros Ha Hk. unfold setup_connection, bind.
  rewrite shutdown_connection_eq.
  destruct s as [[ap md [h|] [k|] [c|] [l|] [r|] [kw|]] d g];
    simpl in Ha; try discriminate.
  injection Ha as <-. simpl in Hk. cbn -[released shutdown_calls].
  rewrite Hk. cbn -[released shutdown_calls]. by rewrite app_nil_r.
Qed.

Lemma setup_connection_fails (s : state) :
  connect_args (self s) = None →
  setup_connection E s
  = (Raise (AttributeError (first_missing (self s))),
     {| self := self s; drv := released E (drv s); sig := sig s |},
     shutdown_calls E).
Proof.
  intros Hx. unfold setup_connection, bind. rewrite shutdown_connection_eq.
  unfold connect_args in Hx.
  destruct s as [[ap md [h|] [k|] [c|] [l|] [r|] [kw|]] d g];
    simpl in Hx; try discriminate; cbn -[released shutdown_calls];
    by rewrite app_nil_r.
Qed.

(** The three ways the connect procedure can end. *)
Lemma setup_connection_cases (s : state) :
  (connect_args (self s) = None ∧
   setup_connection E s
   = (Raise (AttributeError (first_missing (self s))),
      {| self := self s; drv := released E (drv s); sig := sig s |},
      shutdown_calls E)) ∨
  (∃ a key, connect_args (self s) = Some a ∧
            colliding_key (kwargs a) = Some key ∧
            setup_connection E s
            = (Raise (TypeError key),
               {| self := self s; drv := released E (drv s); sig := sig s |},
               shutdown_calls E)) ∨
  (∃ a, connect_args (self s) = Some a ∧ colliding_key (kwargs a) = None ∧
        setup_connection E s
        = (Ok tt,
           {| self := self s; drv := reconnected E (drv s); sig := sig s |},
           shutdown_calls E ++ [ConnectionSetup a (next_handle (drv s))])).
Proof.
  destruct (connect_args (self s)) as [a|] eqn:Ha.
  - right. destruct (colliding_key (kwargs a)) as [key|] eqn:Hk.
    + left. exists a, key. eauto using setup_connection_collides.
    + right. exists a. eauto using setup_connection_eq.
  - left. eauto using setup_connection_fails.
Qed.

Lemma setup_connection_ok_args (s : state) :
  outcome (setup_connection E s) = Ok tt →
  ∃ a, connect_args (self s) = Some a ∧ colliding_key (kwargs a) = None.
Proof.
  destruct (setup_connection_cases s)
    as [(_ & ->) | [(a & key & _ & _ & ->) | (a & Ha & Hk & _)]];
    try discriminate. eauto.
Qed.

Lemma setup_connection_outcome (s : state) :
  outcome (setup_connection E s) = Ok tt ∨
  (∃ attr, outcome (setup_connection E s) = Raise (AttributeError attr)) ∨
  (∃ key, outcome (setup_connection E s) = Raise (TypeError key)).
Proof.
  destruct (setup_connection_cases s)
    as [(_ & ->) | [(a & key & _ & _ & ->) | (a & _ & _ & ->)]]; eauto.
Qed.

Lemma reconnected_live (d : driver) :
  live_clusters d = ∅ → live_sessions d = ∅ →
  live_clusters (reconnected E d) = {[next_handle d]} ∧
  live_sessions (reconnected E d) = {[next_handle d]}.
Proof.
  intros Hc Hs. unfold reconnected. rewrite (released_nothing_live d Hc Hs).
  simpl. rewrite Hc, Hs. split; set_solver.
Qed.

(** ** The bind procedure *)

Lemma init_app_no_hosts_key (a : flask_app) (s : state) :
  CASSANDRA_HOSTS (config a) = None →
  init_app E a s = (Raise (KeyError "CASSANDRA_HOSTS"), s, []).
Proof. intros H. unfold init_app. rewrite H. reflexivity. Qed.

Lemma init_app_no_keyspace_key (a : flask_app) (s : state) (h : list string) :
  CASSANDRA_HOSTS (config a) = Some h →
  CASSANDRA_KEYSPACE (config a) = None →
  init_app E a s
  = (Raise (KeyError "CASSANDRA_KEYSPACE"),
     {| self := set_hosts h (self s); drv := drv s; sig := sig s |}, []).
Proof. intros H1 H2. unfold init_app. rewrite H1, H2. reflexivity. Qed.

Lemma init_app_raises (a : flask_app) (s : state) (h : list string)
    (k : string) :
  CASSANDRA_HOSTS (config a) = Some h →
  CASSANDRA_KEYSPACE (config a) = Some k →
  negb (truthy_list h) && truthy_str k = true →
  init_app E a s
  = (Raise NoConfig,
     {| self := configured a h k (self s); drv := drv s; sig := sig s |}, []).
Proof.
  intros H1 H2 Hc. unfold init_app. rewrite H1, H2.
  destruct s as [m d g]. unfold bind; simpl. rewrite Hc. reflexivity.
Qed.

Lemma init_app_connects (a : flask_app) (s : state) (h : list string)
    (k : string) :
  CASSANDRA_HOSTS (config a) = Some h →
  CASSANDRA_KEYSPACE (config a) = Some k →
  negb (truthy_list h) && truthy_str k = false →
  init_app E a s
  = setup_connection E
      {| self := configured a h k (self s); drv := drv s;
         sig := registered E (sig s) |}.
Proof.
  intros H1 H2 Hc. unfold init_app. rewrite H1, H2.
  destruct s as [m d [pf wi ws bi]]. unfold bind; cbn -[setup_connection].
  rewrite Hc. generalize (setup_connection E); intros f.
  unfold registered, configured, set_setup_kwargs, set_retry_connect,
    set_lazy_connect, set_consistency, set_keyspace_attr, set_hosts.
  destruct (uwsgi_installed E), (celery_installed E); cbn;
    match goal with |- context [f ?s'] => destruct (f s') as [[r s2] t2] end;
    reflexivity.
Qed.

Lemma configured_args (a : flask_app) (h : list string) (k : string)
    (m : CQLAlchemy) :
  is_Some (connect_args (configured a h k m)).
Proof. unfold connect_args, configured; simpl. eauto. Qed.

Lemma configured_connect_args (a : flask_app) (h : list string) (k : string)
    (m : CQLAlchemy) :
  connect_args (configured a h k m)
  = Some {| hosts := h; default_keyspace := k;
            consistency := default 1%Z (CASSANDRA_CONSISTENCY (config a));
            lazy_connect := default false (CASSANDRA_LAZY_CONNECT (config a));
            retry_connect :=
              default false (CASSANDRA_RETRY_CONNECT (config a));
            kwargs := default [] (CASSANDRA_SETUP_KWARGS (config a)) |}.
Proof. reflexivity. Qed.

Lemma init_app_connect_ok (a : flask_app) (s : state) (h : list string)
    (k : string) :
  CASSANDRA_HOSTS (config a) = Some h →
  CASSANDRA_KEYSPACE (config a) = Some k →
  negb (truthy_list h) && truthy_str k = false →
  colliding_key (default [] (CASSANDRA_SETUP_KWARGS (config a))) = None →
  init_app E a s
  = (Ok tt,
     {| self := configured a h k (self s); drv := reconnected E (drv s);
        sig := registered E (sig s) |},
     shutdown_calls E ++
     [ConnectionSetup
        {| hosts := h; default_keyspace := k;
           consistency := default 1%Z (CASSANDRA_CONSISTENCY (config a));
           lazy_connect := default false (CASSANDRA_LAZY_CONNECT (config a));
           retry_connect :=
             default false (CASSANDRA_RETRY_CONNECT (config a));
           kwargs := default [] (CASSANDRA_SETUP_KWARGS (config a)) |}
        (next_handle (drv s))]).
Proof.
  intros H1 H2 Hc Hbag. rewrite (init_app_connects a s h k H1 H2 Hc).
  exact (setup_connection_eq
           {| self := configured a h k (self s); drv := drv s;
              sig := registered E (sig s) |}
           _ (configured_connect_args a h k (self s)) Hbag).
Qed.

Lemma init_app_connect_collides (a : flask_app) (s : state) (h : list string)
    (k key : string) :
  CASSANDRA_HOSTS (config a) = Some h →
  CASSANDRA_KEYSPACE (config a) = Some k →
  negb (truthy_list h) && truthy_str k = false →
  colliding_key (default [] (CASSANDRA_SETUP_KWARGS (config a))) = Some key →
  init_app E a s
  = (Raise (TypeError key),
     {| self := configured a h k (self s); drv := released E (drv s);
        sig := registered E (sig s) |},
     shutdown_calls E).
Proof.
  intros H1 H2 Hc Hbag. rewrite (init_app_connects a s h k H1 H2 Hc).
  exact (setup_connection_collides
           {| self := configured a h k (self s); drv := drv s;
              sig := registered E (sig s) |}
           _ key (configured_connect_args a h k (self s)) Hbag).
Qed.

Lemma init_app_raises_iff (a : flask_app) (s : state) :
  outcome (init_app E a s) = Raise NoConfig ↔
  ∃ h k, CASSANDRA_HOSTS (config a) = Some h ∧
         CASSANDRA_KEYSPACE (config a) = Some k ∧
         negb (truthy_list h) && truthy_str k = true.
Proof.
  split.
  - intros Hr.
    destruct (CASSANDRA_HOSTS (config a)) as [h|] eqn:H1.
    2: { rewrite init_app_no_hosts_key in Hr by done. discriminate. }
    destruct (CASSANDRA_KEYSPACE (config a)) as [k|] eqn:H2.
    2: { rewrite (init_app_no_keyspace_key a s h) in Hr by done.
         discriminate. }
    destruct (negb (truthy_list h) && truthy_str k) eqn:Hc; [eauto |].
    rewrite (init_app_connects a s h k H1 H2 Hc) in Hr.
    match type of Hr with
    | context [setup_connection E ?s'] =>
        destruct (setup_connection_outcome s') as [Ho | [[x Ho] | [x Ho]]]
    end; rewrite Ho in Hr; discriminate.
  - intros (h & k & H1 & H2 & Hc).
    rewrite (init_app_raises a s h k H1 H2 Hc). reflexivity.
Qed.

(** ** Disconnect, connect and bind: the stated properties *)

(** C8. [shutdown_connection] never raises; when no cluster client and no
    session is live it leaves the state as it is; and a second call right
    after a first one returns normally and leaves the state the first call
    left. *)
Theorem shutdown_connection_idempotent (s : state) :
  outcome (shutdown_connection E s) = Ok tt ∧
  (live_clusters (drv s) = ∅ → live_sessions (drv s) = ∅ →
   final (shutdown_connection E s) = s) ∧
  outcome (shutdown_connection E (final (shutdown_connection E s))) = Ok tt ∧
  final (shutdown_connection E (final (shutdown_connection E s)))
  = final (shutdown_connection E s).
Proof.
  rewrite !shutdown_connection_eq. unfold outcome, final; simpl.
  rewrite released_idemp. repeat split.
  intros Hc Hs. rewrite released_nothing_live by assumption.
  destruct s; reflexivity.
Qed.

(** [shutdown_connection] never looks at the driver's current globals: the
    calls it makes are the same in every state. *)
Lemma shutdown_connection_trace_fixed (s s' : state) :
  trace (shutdown_connection E s) = trace (shutdown_connection E s').
Proof. rewrite !shutdown_connection_eq. reflexivity. Qed.

Lemma shutdown_calls_imported (h : handle) :
  (ClusterShutdown h ∈ shutdown_calls E ↔ cluster E = Some h) ∧
  (SessionShutdown h ∈ shutdown_calls E ↔ session E = Some h).
Proof.
  unfold shutdown_calls.
  destruct (cluster E) as [c|], (session E) as [x|]; simpl; split;
    rewrite ?elem_of_cons, ?elem_of_nil; naive_solver.
Qed.

(** C3. [shutdown_connection] makes the driver calls that the names bound at
    import time dictate, whatever the state. So when [setup_connection]
    returns, having made the new handle the process-wide connection, no later
    [shutdown_connection] calls [shutdown] on that handle's cluster client or
    session, and both stay live through it. *)
Theorem shutdown_connection_spares_new_connection (s : state) :
  imported_before E (drv s) →
  outcome (setup_connection E s) = Ok tt →
  let h := next_handle (drv s) in
  let s1 := final (setup_connection E s) in
  (∀ s', trace (shutdown_connection E s') = shutdown_calls E) ∧
  conn_cluster (drv s1) = Some h ∧ conn_session (drv s1) = Some h ∧
  h ∈ live_clusters (drv s1) ∧ h ∈ live_sessions (drv s1) ∧
  ∀ s', (ClusterShutdown h ∉ trace (shutdown_connection E s')) ∧
        (SessionShutdown h ∉ trace (shutdown_connection E s')) ∧
        (h ∈ live_clusters (drv s') →
         h ∈ live_clusters (drv (final (shutdown_connection E s')))) ∧
        (h ∈ live_sessions (drv s') →
         h ∈ live_sessions (drv (final (shutdown_connection E s')))).
Proof.
  intros [Hc Hs] Hok h s1.
  destruct (setup_connection_ok_args s Hok) as (a & Ha & Hk).
  subst s1. rewrite (setup_connection_eq s a Ha Hk). unfold final; simpl.
  assert (Hnc : cluster E ≠ Some h).
  { intros Heq. specialize (Hc h Heq). unfold h in Hc. lia. }
  assert (Hns : session E ≠ Some h).
  { intros Heq. specialize (Hs h Heq). unfold h in Hs. lia. }
  split; [intros s'; rewrite shutdown_connection_eq; reflexivity |].
  repeat split; try set_solver.
  all: rewrite shutdown_connection_eq; unfold trace, final; simpl.
  - rewrite (proj1 (shutdown_calls_imported h)). exact Hnc.
  - rewrite (proj2 (shutdown_calls_imported h)). exact Hns.
  - destruct (cluster E) as [c|]; [| done].
    assert (c ≠ h) by congruence. set_solver.
  - destruct (session E) as [c|]; [| done].
    assert (c ≠ h) by congruence. set_solver.
Qed.

(** C6, as the code has it. For a configuration with a non-empty host list
    and a keyspace whose bag of extra options holds none of the keywords the
    connect call writes out, [init_app] returns normally; it is the connect
    procedure run on the configured manager, after the assignments and
    registrations and whatever optional frameworks are installed; the handle
    it creates is live and is the process-wide connection; and when no
    handle was live before, it is the only live one afterwards. *)
Theorem init_app_binds (a : flask_app) (s : state) (h : list string)
    (k : string) :
  CASSANDRA_HOSTS (config a) = Some h → h ≠ [] →
  CASSANDRA_KEYSPACE (config a) = Some k →
  colliding_key (default [] (CASSANDRA_SETUP_KWARGS (config a))) = None →
  outcome (init_app E a s) = Ok tt ∧
  init_app E a s
  = setup_connection E
      {| self := configured a h k (self s); drv := drv s;
         sig := registered E (sig s) |} ∧
  (∃ args, trace (init_app E a s)
           = shutdown_calls E ++ [ConnectionSetup args (next_handle (drv s))]
           ∧ hosts args = h ∧ default_keyspace args = k) ∧
  conn_cluster (drv (final (init_app E a s))) = Some (next_handle (drv s)) ∧
  conn_session (drv (final (init_app E a s))) = Some (next_handle (drv s)) ∧
  next_handle (drv s) ∈ live_clusters (drv (final (init_app E a s))) ∧
  next_handle (drv s) ∈ live_sessions (drv (final (init_app E a s))) ∧
  (live_clusters (drv s) = ∅ → live_sessions (drv s) = ∅ →
   live_clusters (drv (final (init_app E a s))) = {[next_handle (drv s)]} ∧
   live_sessions (drv (final (init_app E a s))) = {[next_handle (drv s)]}).
Proof.
  intros H1 Hne H2 Hbag.
  assert (Hc : negb (truthy_list h) && truthy_str k = false).
  { destruct h; [done | reflexivity]. }
  rewrite (init_app_connects a s h k H1 H2 Hc).
  destruct (configured_args a h k (self s)) as [x Hx].
  assert (Hxk : kwargs x = default [] (CASSANDRA_SETUP_KWARGS (config a))
                ∧ hosts x = h ∧ default_keyspace x = k).
  { unfold connect_args, configured in Hx; simpl in Hx.
    injection Hx as <-. repeat split. }
  destruct Hxk as (Hkw & Hh & Hk).
  rewrite (setup_connection_eq _ x) by (try exact Hx; by rewrite Hkw).
  unfold outcome, final, trace; cbn -[reconnected].
  split; [reflexivity |]. split; [reflexivity |].
  split; [exists x; auto |].
  split; [reflexivity |]. split; [reflexivity |].
  split; [unfold reconnected; simpl; set_solver |].
  split; [unfold reconnected; simpl; set_solver |].
  intros Hlc Hls. exact (reconnected_live (drv s) Hlc Hls).
Qed.

(** C5, as the code has it. When [init_app] raises [NoConfig] nothing was
    registered, no driver call was made and the driver is as before, and the
    constructor called with that application yields no manager; the manager
    [init_app] was called on is not as before: its six configuration
    attributes hold what was read from the configuration. *)
Theorem init_app_NoConfig_effect (a : flask_app) (s : state) :
  outcome (init_app E a s) = Raise NoConfig →
  ∃ h k,
    CASSANDRA_HOSTS (config a) = Some h ∧
    CASSANDRA_KEYSPACE (config a) = Some k ∧
    final (init_app E a s)
    = {| self := configured a h k (self s); drv := drv s; sig := sig s |} ∧
    trace (init_app E a s) = [] ∧
    outcome (new_CQLAlchemy E (Some a) s) = Raise NoConfig.
Proof.
  intros Hr. apply init_app_raises_iff in Hr as (h & k & H1 & H2 & Hc).
  exists h, k. rewrite (init_app_raises a s h k H1 H2 Hc).
  repeat split; try assumption.
  unfold new_CQLAlchemy, __init__, bind, modify_self; simpl.
  rewrite (init_app_raises a _ h k H1 H2 Hc). reflexivity.
Qed.

(** The part of C1 that holds: an empty host list with a non-empty keyspace
    makes [init_app] raise [NoConfig] before any driver call. *)
Lemma init_app_empty_hosts_with_keyspace (a : flask_app) (s : state)
    (k : string) :
  CASSANDRA_HOSTS (config a) = Some [] →
  CASSANDRA_KEYSPACE (config a) = Some k → k ≠ "" →
  outcome (init_app E a s) = Raise NoConfig ∧
  trace (init_app E a s) = [] ∧
  drv (final (init_app E a s)) = drv s.
Proof.
  intros H1 H2 Hk.
  assert (Hc : negb (truthy_list (@nil string)) && truthy_str k = true).
  { destruct k; [done | reflexivity]. }
  rewrite (init_app_raises a s [] k H1 H2 Hc). repeat split.
Qed.

(** ** The keyspace switch *)

Lemma set_keyspace_named (n : string) (s : state) :
  n ≠ "" →
  set_keyspace (Some n) s
  = (Ok tt,
     {| self := set_keyspace_attr n (self s);
        drv := {| conn_cluster := conn_cluster (drv s);
                  conn_session := conn_session (drv s);
                  DEFAULT_KEYSPACE := Some n;
                  live_clusters := live_clusters (drv s);
                  live_sessions := live_sessions (drv s);
                  next_handle := next_handle (drv s) |};
        sig := sig s |}, []).
Proof. intros Hn. destruct n; [done |]. reflexivity. Qed.

Lemma set_keyspace_default (s : state) (a : flask_app) (k : string) :
  app (self s) = Some a → CASSANDRA_KEYSPACE (config a) = Some k →
  set_keyspace None s
  = (Ok tt,
     {| self := set_keyspace_attr k (self s);
        drv := {| conn_cluster := conn_cluster (drv s);
                  conn_session := conn_session (drv s);
                  DEFAULT_KEYSPACE := Some k;
                  live_clusters := live_clusters (drv s);
                  live_sessions := live_sessions (drv s);
                  next_handle := next_handle (drv s) |};
        sig := sig s |}, []).
Proof.
  intros Ha Hk. unfold set_keyspace, self_app_config_keyspace, bind, get_self.
  rewrite Ha, Hk. reflexivity.
Qed.

Lemma set_keyspace_falsy (arg : option string) (s : state) :
  truthy_arg arg = false → set_keyspace arg s = set_keyspace None s.
Proof. destruct arg as [[|c n]|]; [reflexivity | discriminate | reflexivity]. Qed.

(** Without an application on the manager the reset cannot read anything. *)
Lemma set_keyspace_no_app (s : state) :
  app (self s) = None →
  set_keyspace None s = (Raise (AttributeError "config"), s, []).
Proof.
  intros Ha. unfold set_keyspace, self_app_config_keyspace, bind, get_self.
  rewrite Ha. reflexivity.
Qed.

(** ** What the other methods leave alone *)

Lemma for_each_sync_table (l : list cls) (s : state) :
  for_each sync_table l s = (Ok tt, s, SyncTable <$> l).
Proof.
  induction l as [|x l IH]; [reflexivity |].
  simpl. unfold bind. simpl. rewrite IH. reflexivity.
Qed.

Lemma sync_db_final (s : state) : final (sync_db E s) = s.
Proof.
  unfold sync_db, bind, get_self.
  destruct (get_subclasses _ _ _) as [l|]; [| reflexivity].
  rewrite for_each_sync_table. reflexivity.
Qed.

Lemma sync_db_no_setup (s : state) (a : setup_args) (h : handle) :
  ConnectionSetup a h ∉ trace (sync_db E s).
Proof.
  unfold sync_db, bind, get_self.
  destruct (get_subclasses _ _ _) as [l|]; unfold trace; simpl.
  - rewrite for_each_sync_table. simpl.
    intros (c & Hc & _)%list_elem_of_fmap. discriminate.
  - apply not_elem_of_nil.
Qed.

Lemma setup_connection_final (s : state) :
  self (final (setup_connection E s)) = self s ∧
  sig (final (setup_connection E s)) = sig s ∧
  DEFAULT_KEYSPACE (drv (final (setup_connection E s)))
  = DEFAULT_KEYSPACE (drv s) ∧
  (next_handle (drv s) ≤ next_handle (drv (final (setup_connection E s))))%nat.
Proof.
  destruct (setup_connection_cases s)
    as [(_ & ->) | [(a & key & _ & _ & ->) | (a & _ & _ & ->)]];
    unfold final; simpl; repeat split; lia.
Qed.

Lemma setup_connection_keyspace (s : state) (a : setup_args) (h : handle) :
  ConnectionSetup a h ∈ trace (setup_connection E s) →
  _keyspace_ (self s) = Some (default_keyspace a).
Proof.
  assert (Hsd : ConnectionSetup a h ∉ shutdown_calls E).
  { unfold shutdown_calls. destruct (cluster E), (session E); simpl;
      rewrite ?elem_of_cons, ?elem_of_nil; naive_solver. }
  destruct (setup_connection_cases s)
    as [(_ & ->) | [(x & key & _ & _ & ->) | (x & Hx & _ & ->)]];
    unfold trace; simpl; try done.
  rewrite elem_of_app, list_elem_of_singleton.
  intros [Hin | Heq]; [done |].
  injection Heq as -> ->. unfold connect_args in Hx.
  destruct (self s) as [ap md [h'|] [k|] [c|] [l|] [r|] [kw|]];
    simpl in Hx; try discriminate.
  injection Hx as <-. reflexivity.
Qed.

Lemma invoke_keeps_keyspace (c : method_call) (s : state) :
  assigns_keyspace c = false →
  DEFAULT_KEYSPACE (drv (final (invoke E c s))) = DEFAULT_KEYSPACE (drv s) ∧
  _keyspace_ (self (final (invoke E c s))) = _keyspace_ (self s).
Proof.
  destruct c as [a| | | |n|[| |]]; simpl; try discriminate; intros _.
  all: try (rewrite shutdown_connection_eq; split; reflexivity).
  all: try (rewrite sync_db_final; split; reflexivity).
  all: destruct (setup_connection_final s) as (-> & _ & -> & _); done.
Qed.

Lemma invoke_setup_keyspace (c : method_call) (s : state) (a : setup_args)
    (h : handle) :
  assigns_keyspace c = false →
  ConnectionSetup a h ∈ trace (invoke E c s) →
  _keyspace_ (self s) = Some (default_keyspace a).
Proof.
  destruct c as [a'| | | |n|[| |]]; simpl; try discriminate; intros _.
  all: try apply setup_connection_keyspace.
  all: try (intros Hin; exfalso; revert Hin; apply sync_db_no_setup).
  all: rewrite shutdown_connection_eq; unfold trace, shutdown_calls; simpl;
    destruct (cluster E), (session E); simpl;
    rewrite ?elem_of_cons, ?elem_of_nil; naive_solver.
Qed.

Lemma run_keeps_keyspace (cs : list method_call) (s : state) (n : string) :
  Forall (λ c, assigns_keyspace c = false) cs →
  DEFAULT_KEYSPACE (drv s) = Some n → _keyspace_ (self s) = Some n →
  DEFAULT_KEYSPACE (drv (run E cs s).1) = Some n ∧
  _keyspace_ (self (run E cs s).1) = Some n ∧
  ∀ a h, ConnectionSetup a h ∈ (run E cs s).2 → default_keyspace a = n.
Proof.
  intros Hcs. revert s.
  induction Hcs as [|c cs' Hc Hcs' IH]; intros s Hd Hk; simpl.
  - repeat split; try assumption. intros a h Hin. by apply elem_of_nil in Hin.
  - destruct (invoke_keeps_keyspace c s Hc) as [Hd' Hk'].
    rewrite Hd in Hd'. rewrite Hk in Hk'.
    specialize (IH (final (invoke E c s)) Hd' Hk').
    destruct (run E cs' (final (invoke E c s))) as [s' t]; simpl in *.
    destruct IH as (? & ? & IH). repeat split; try assumption.
    intros a h [Hin | Hin]%elem_of_app; [| by eapply IH].
    apply (invoke_setup_keyspace c s a h Hc) in Hin. congruence.
Qed.

(** The keyspace switch where it works. With the application on the
    manager, [set_keyspace()] sets the default keyspace and the manager's
    remembered keyspace to the keyspace of the application's configuration.
    [set_keyspace(n)] for a name such as ["other"] sets both to [n], and they
    stay [n] through every later call that is not [init_app] or
    [set_keyspace]; each connect made meanwhile passes [n] to the driver. *)
Theorem set_keyspace_sets_and_persists (s : state) :
  (∀ a k, app (self s) = Some a → CASSANDRA_KEYSPACE (config a) = Some k →
     outcome (set_keyspace None s) = Ok tt ∧
     DEFAULT_KEYSPACE (drv (final (set_keyspace None s))) = Some k ∧
     _keyspace_ (self (final (set_keyspace None s))) = Some k) ∧
  (∀ n, n ≠ "" →
     outcome (set_keyspace (Some n) s) = Ok tt ∧
     DEFAULT_KEYSPACE (drv (final (set_keyspace (Some n) s))) = Some n ∧
     _keyspace_ (self (final (set_keyspace (Some n) s))) = Some n ∧
     ∀ cs, Forall (λ c, assigns_keyspace c = false) cs →
       let r := run E cs (final (set_keyspace (Some n) s)) in
       DEFAULT_KEYSPACE (drv r.1) = Some n ∧
       _keyspace_ (self r.1) = Some n ∧
       ∀ a h, ConnectionSetup a h ∈ r.2 → default_keyspace a = n).
Proof.
  split.
  - intros a k Ha Hk. rewrite (set_keyspace_default s a k Ha Hk).
    repeat split.
  - intros n Hn. rewrite (set_keyspace_named n s Hn).
    do 3 (split; [reflexivity |]).
    intros cs Hcs. apply run_keeps_keyspace; done.
Qed.

(** C10. A falsy argument, [None] or the empty string, is handled exactly as
    a call without argument. With the application on the manager,
    [set_keyspace("")] resets the default keyspace and the remembered
    keyspace to the configured one; the default keyspace becomes the empty
    string only if the configured keyspace is itself empty. *)
Theorem set_keyspace_falsy_argument (s : state) :
  (∀ arg, truthy_arg arg = false → set_keyspace arg s = set_keyspace None s) ∧
  set_keyspace (Some "") s = set_keyspace None s ∧
  (∀ a k, app (self s) = Some a → CASSANDRA_KEYSPACE (config a) = Some k →
     outcome (set_keyspace (Some "") s) = Ok tt ∧
     DEFAULT_KEYSPACE (drv (final (set_keyspace (Some "") s))) = Some k ∧
     _keyspace_ (self (final (set_keyspace (Some "") s))) = Some k ∧
     (k ≠ "" →
      DEFAULT_KEYSPACE (drv (final (set_keyspace (Some "") s))) ≠ Some "")).
Proof.
  split; [intros arg; apply set_keyspace_falsy |].
  split; [reflexivity |].
  intros a k Ha Hk. rewrite (set_keyspace_falsy (Some "") s eq_refl).
  rewrite (set_keyspace_default s a k Ha Hk). repeat split.
  unfold final; simpl. congruence.
Qed.

End Properties.

(** ** Subclass discovery *)

Section Discovery.
Context (tbl : list pyclass).

Lemma elem_of_flatten {A} (x : A) (ls : list (list A)) :
  x ∈ flatten ls ↔ ∃ l, l ∈ ls ∧ x ∈ l.
Proof.
  induction ls as [|l ls IH]; simpl.
  - split; [by intros ?%elem_of_nil | by intros (l & ?%elem_of_nil & _)].
  - rewrite elem_of_app, IH. split.
    + intros [Hx | (l' & Hl' & Hx)];
        [exists l | exists l']; split; auto; set_solver.
    + intros (l' & [-> | Hl']%elem_of_cons & Hx); eauto.
Qed.

Lemma times_app (x : cls) (l k : list cls) :
  times x (l ++ k) = times x l + times x k.
Proof. unfold times. apply count_occ_app. Qed.

Lemma times_elem (x : cls) (l : list cls) : x ∈ l → (1 ≤ times x l)%nat.
Proof.
  intros Hx%list_elem_of_In. unfold times.
  apply (count_occ_In Nat.eq_dec) in Hx. lia.
Qed.

Lemma times_flatten_lookup (x : cls) (ls : list (list cls)) (i : nat)
    (l : list cls) :
  ls !! i = Some l → (times x l ≤ times x (flatten ls))%nat.
Proof.
  revert i. induction ls as [|l0 ls IH]; intros [|i] Hi; try discriminate;
    simpl in *; rewrite times_app.
  - injection Hi as ->. lia.
  - specialize (IH i Hi). lia.
Qed.

Lemma times_flatten_lookup2 (x : cls) (ls : list (list cls)) (i j : nat)
    (l k : list cls) :
  i ≠ j → ls !! i = Some l → ls !! j = Some k →
  (times x l + times x k ≤ times x (flatten ls))%nat.
Proof.
  revert i j. induction ls as [|l0 ls IH]; intros [|i] [|j] Hij Hi Hj;
    try discriminate; try done; simpl in *; rewrite times_app.
  - injection Hi as ->. pose proof (times_flatten_lookup x ls j k Hj). lia.
  - injection Hj as ->. pose proof (times_flatten_lookup x ls i l Hi). lia.
  - assert (i ≠ j) by congruence. specialize (IH i j H Hi Hj). lia.
Qed.

Lemma table_syncs_fmap (x : cls) (l : list cls) :
  table_syncs x (SyncTable <$> l) = times x l.
Proof.
  unfold table_syncs, times. induction l as [|c l IH]; [reflexivity |].
  change (SyncTable <$> c :: l) with (SyncTable c :: (SyncTable <$> l)).
  cbn [List.filter count_occ].
  destruct (Nat.eq_dec c x) as [->|Hne].
  - rewrite Nat.eqb_refl. cbn [length]. by rewrite IH.
  - apply Nat.eqb_neq in Hne. rewrite Hne. exact IH.
Qed.

Lemma classes_in_order_from_spec (n k : nat) (l : list pyclass) (i : nat)
    (ci : pyclass) (d : cls) :
  classes_in_order_from n k l = true →
  l !! i = Some ci → d ∈ __subclasses__ ci → (k + i < d ∧ d < n)%nat.
Proof.
  revert k i. induction l as [|c0 l IH]; intros k [|i] Hok Hi Hd;
    try discriminate; simpl in *;
    apply andb_prop in Hok as [H0 Hrest].
  - injection Hi as ->.
    rewrite forallb_forall in H0. apply list_elem_of_In in Hd.
    specialize (H0 d Hd). apply andb_prop in H0 as [H1 H2].
    apply Nat.ltb_lt in H1, H2. lia.
  - specialize (IH (S k) i Hrest Hi Hd). lia.
Qed.

Lemma classes_in_order_spec (c : cls) (ci : pyclass) (d : cls) :
  classes_in_order tbl = true →
  tbl !! c = Some ci → d ∈ __subclasses__ ci → (c < d ∧ d < length tbl)%nat.
Proof.
  intros Hok Hc Hd.
  apply (classes_in_order_from_spec _ 0 tbl c ci d Hok Hc Hd).
Qed.

(** [get_subclasses] returns: with classes created in order the nesting of
    calls below class [c] is at most the number of classes after it. *)
Lemma get_subclasses_total :
  classes_in_order tbl = true →
  ∀ (n : nat) (c : cls),
    (c < length tbl)%nat → (length tbl - c ≤ n)%nat →
    is_Some (get_subclasses tbl n c).
Proof.
  intros Hok n. induction n as [|n IH]; intros c Hc Hn; [lia |].
  cbn [get_subclasses]. destruct (lookup_lt_is_Some_2 tbl c Hc) as [ci Hci]. rewrite Hci.
  destruct (__abstract__ ci); [| eauto].
  apply fmap_is_Some, mapM_is_Some_2, Forall_forall. intros d Hd.
  destruct (classes_in_order_spec c ci d Hok Hci Hd).
  apply IH; lia.
Qed.

(** A deeper bound gives the same result. *)
Lemma get_subclasses_deeper (n m : nat) (c : cls) (l : list cls) :
  get_subclasses tbl n c = Some l → (n ≤ m)%nat →
  get_subclasses tbl m c = Some l.
Proof.
  revert m c l. induction n as [|n IH]; intros m c l Hl Hm; [discriminate |].
  destruct m as [|m]; [lia |]. cbn [get_subclasses] in *.
  destruct (tbl !! c) as [ci|]; [| discriminate].
  destruct (__abstract__ ci); [| exact Hl].
  apply fmap_Some in Hl as (ks & Hks & ->).
  apply fmap_Some. exists ks. split; [| reflexivity].
  apply mapM_Some. apply mapM_Some in Hks.
  eapply Forall2_impl; [exact Hks |]. intros d y Hy. apply IH; [exact Hy | lia].
Qed.

(** Every class discovered is concrete and is reached from [c] through
    abstract classes only. *)
Lemma get_subclasses_sound (n : nat) (c : cls) (l : list cls) (x : cls) :
  get_subclasses tbl n c = Some l → x ∈ l →
  ∃ p, abstract_path tbl c p x ∧ concrete tbl x.
Proof.
  revert c l. induction n as [|n IH]; intros c l Hl Hx; [discriminate |].
  cbn [get_subclasses] in Hl. destruct (tbl !! c) as [ci|] eqn:Hci; [| discriminate].
  destruct (__abstract__ ci) eqn:Hab.
  - apply fmap_Some in Hl as (ks & Hks & ->). apply mapM_Some in Hks.
    apply elem_of_flatten in Hx as (y & Hy & Hx).
    apply list_elem_of_lookup in Hy as [i Hi].
    destruct (Forall2_lookup_r _ _ _ i y Hks Hi) as (d & Hd & Hdy).
    destruct (IH d y Hdy Hx) as (p & Hp & Hconc).
    exists (d :: p). split; [| exact Hconc].
    eapply abstract_path_step; eauto. eapply list_elem_of_lookup_2; eauto.
  - injection Hl as <-. apply list_elem_of_singleton in Hx as ->.
    exists []. split; [constructor | exists ci; auto].
Qed.

(** Every concrete class reached through abstract classes only is
    discovered. *)
Lemma get_subclasses_complete (n : nat) (c : cls) (l : list cls)
    (p : list cls) (x : cls) :
  get_subclasses tbl n c = Some l →
  abstract_path tbl c p x → concrete tbl x → x ∈ l.
Proof.
  revert c l p. induction n as [|n IH]; intros c l p Hl Hp Hx; [discriminate |].
  cbn [get_subclasses] in Hl. destruct Hp as [c | c ci d p e Hci Hab Hd Hp].
  - destruct Hx as (ci & Hci & Hab). rewrite Hci, Hab in Hl.
    injection Hl as <-. set_solver.
  - rewrite Hci, Hab in Hl.
    apply fmap_Some in Hl as (ks & Hks & ->). apply mapM_Some in Hks.
    apply list_elem_of_lookup in Hd as [i Hi].
    destruct (Forall2_lookup_l _ _ _ i d Hks Hi) as (y & Hy & Hdy).
    apply elem_of_flatten. exists y. split.
    + eapply list_elem_of_lookup_2; eauto.
    + eapply IH; eauto.
Qed.

(** A concrete class reached along two different chains of abstract classes
    is discovered at least twice. *)
Lemma get_subclasses_two_paths (n : nat) (c : cls) (l : list cls)
    (p q : list cls) (x : cls) :
  get_subclasses tbl n c = Some l →
  abstract_path tbl c p x → abstract_path tbl c q x → p ≠ q →
  concrete tbl x → (2 ≤ times x l)%nat.
Proof.
  revert c l p q.
  induction n as [|n IH]; intros c l p q Hl Hp Hq Hpq Hx; [discriminate |].
  cbn [get_subclasses] in Hl.
  destruct Hp as [c | c ci d p e Hci Hab Hd Hp].
  { destruct Hx as (ci & Hci & Hab).
    inversion Hq as [| ? ci' ? ? ? Hci' Hab' ]; subst; [done |]. congruence. }
  inversion Hq as [| ? ci' d' q' ? Hci' Hab' Hd' Hq']; subst.
  { destruct Hx as (cx & Hcx & Habx). congruence. }
  assert (ci' = ci) as -> by congruence.
  rewrite Hci, Hab in Hl.
  apply fmap_Some in Hl as (ks & Hks & ->). apply mapM_Some in Hks.
  apply list_elem_of_lookup in Hd as [i Hi].
  apply list_elem_of_lookup in Hd' as [j Hj].
  destruct (Forall2_lookup_l _ _ _ i d Hks Hi) as (y & Hy & Hdy).
  destruct (Forall2_lookup_l _ _ _ j d' Hks Hj) as (z & Hz & Hdz).
  destruct (decide (d = d')) as [<-|Hne].
  - assert (Hpq' : p ≠ q') by congruence.
    pose proof (IH d y p q' Hdy Hp Hq' Hpq' Hx).
    pose proof (times_flatten_lookup e ks i y Hy). lia.
  - assert (i ≠ j) by congruence.
    pose proof (times_elem e y (get_subclasses_complete n d y p e Hdy Hp Hx)).
    pose proof (times_elem e z (get_subclasses_complete n d' z q' e Hdz Hq' Hx)).
    pose proof (times_flatten_lookup2 e ks i j y z H Hy Hz). lia.
Qed.

Lemma abstract_path_snoc (c : cls) (p : list cls) (a : cls) (ca : pyclass)
    (x : cls) :
  abstract_path tbl c p a →
  tbl !! a = Some ca → __abstract__ ca = true → x ∈ __subclasses__ ca →
  abstract_path tbl c (p ++ [x]) x.
Proof.
  intros Hp Ha Hab Hx. induction Hp as [c | c ci d p e Hci Habc Hd Hp IH].
  - simpl. eapply abstract_path_step; eauto. constructor.
  - simpl. eapply abstract_path_step; eauto.
Qed.

Lemma abstract_path_end (c : cls) (p : list cls) (e : cls) :
  abstract_path tbl c p e → last (c :: p) = Some e.
Proof.
  induction 1 as [c | c ci d p e Hci Habc Hd Hp IH]; [reflexivity |].
  rewrite last_cons_cons. exact IH.
Qed.

Lemma abstract_path_loaded (c : cls) (p : list cls) (e : cls) (ce : pyclass) :
  abstract_path tbl c p e → tbl !! e = Some ce → (c < length tbl)%nat.
Proof.
  intros [c' | c' ci d p' e' Hci _ _ _] He; eapply lookup_lt_Some; eauto.
Qed.

End Discovery.

(** ** Batch schema sync *)

Section SyncDb.
Context (E : env).

Lemma sync_db_eq (s : state) (l : list cls) :
  get_subclasses (classes E) (S (length (classes E))) (Model (self s)) = Some l →
  sync_db E s = (Ok tt, s, SyncTable <$> l).
Proof.
  intros Hl. unfold sync_db, bind, get_self. cbn -[get_subclasses].
  rewrite Hl, for_each_sync_table. reflexivity.
Qed.

(** With classes created in order [sync_db] returns, having called
    [sync_table] on the concrete classes that are reached from [self.Model]
    through abstract classes only, and on no other. *)
Lemma sync_db_returns (s : state) :
  classes_in_order (classes E) = true →
  (Model (self s) < length (classes E))%nat →
  ∃ l, sync_db E s = (Ok tt, s, SyncTable <$> l) ∧
       ∀ x, x ∈ l ↔
            ∃ p, abstract_path (classes E) (Model (self s)) p x ∧
                 concrete (classes E) x.
Proof.
  intros Hok Hm.
  destruct (get_subclasses_total (classes E) Hok (S (length (classes E)))
              (Model (self s)) Hm ltac:(lia)) as [l Hl].
  exists l. split; [by apply sync_db_eq |]. intros x. split.
  - intros Hx. eapply get_subclasses_sound; eauto.
  - intros (p & Hp & Hx). eapply get_subclasses_complete; eauto.
Qed.

(** C9. Let a concrete class [C] be a direct subclass of two distinct
    abstract classes that discovery reaches from [self.Model]. Then
    [get_subclasses] returns a list in which [C] occurs at least twice, and
    [sync_db] returns having called [sync_table] on [C] at least twice. *)
Theorem sync_db_repeats_diamond (s : state) (A1 A2 C : cls)
    (p1 p2 : list cls) (c1 c2 : pyclass) :
  classes_in_order (classes E) = true →
  abstract_path (classes E) (Model (self s)) p1 A1 →
  abstract_path (classes E) (Model (self s)) p2 A2 →
  A1 ≠ A2 →
  classes E !! A1 = Some c1 → __abstract__ c1 = true →
  C ∈ __subclasses__ c1 →
  classes E !! A2 = Some c2 → __abstract__ c2 = true →
  C ∈ __subclasses__ c2 →
  concrete (classes E) C →
  ∃ l, get_subclasses (classes E) (S (length (classes E))) (Model (self s))
       = Some l ∧
       (2 ≤ times C l)%nat ∧
       outcome (sync_db E s) = Ok tt ∧
       (2 ≤ table_syncs C (trace (sync_db E s)))%nat.
Proof.
  intros Hok Hp1 Hp2 Hne H1 Hab1 HC1 H2 Hab2 HC2 HC.
  pose proof (abstract_path_loaded _ _ _ _ _ Hp1 H1) as Hm.
  destruct (get_subclasses_total (classes E) Hok (S (length (classes E)))
              (Model (self s)) Hm ltac:(lia)) as [l Hl].
  pose proof (abstract_path_snoc _ _ _ _ _ C Hp1 H1 Hab1 HC1) as Hq1.
  pose proof (abstract_path_snoc _ _ _ _ _ C Hp2 H2 Hab2 HC2) as Hq2.
  assert (Hpq : p1 ++ [C] ≠ p2 ++ [C]).
  { intros Heq. apply app_inj_tail in Heq as [-> _].
    apply abstract_path_end in Hp1, Hp2. congruence. }
  pose proof (get_subclasses_two_paths _ _ _ _ _ _ _ Hl Hq1 Hq2 Hpq HC) as H2x.
  exists l. rewrite (sync_db_eq s l Hl). unfold outcome, trace; simpl.
  rewrite table_syncs_fmap. auto.
Qed.

End SyncDb.

(** ** The imported names stay behind the driver *)

Section Imported.
Context (E : env).

Lemma imported_before_import (d : driver) (base : cls) (tbl : list pyclass)
    (u c : bool) :
  (∀ h, conn_cluster d = Some h → h < next_handle d) →
  (∀ h, conn_session d = Some h → h < next_handle d) →
  imported_before (import_module d base tbl u c) d.
Proof. intros Hc Hs. split; simpl; assumption. Qed.

Lemma set_keyspace_next_handle (n : option string) (s : state) :
  next_handle (drv (final (set_keyspace n s))) = next_handle (drv s).
Proof.
  unfold set_keyspace, self_app_config_keyspace, bind, get_self, getitem.
  destruct s as [[[a|] md h k co l r kw] d g];
    destruct n as [[|c n]|]; simpl; try reflexivity;
    destruct (CASSANDRA_KEYSPACE (config a)); reflexivity.
Qed.

Lemma init_app_next_handle (a : flask_app) (s : state) :
  (next_handle (drv s) ≤ next_handle (drv (final (init_app E a s))))%nat.
Proof.
  destruct (CASSANDRA_HOSTS (config a)) as [h|] eqn:H1.
  2: { by rewrite init_app_no_hosts_key. }
  destruct (CASSANDRA_KEYSPACE (config a)) as [k|] eqn:H2.
  2: { by rewrite (init_app_no_keyspace_key E a s h). }
  destruct (negb (truthy_list h) && truthy_str k) eqn:Hc.
  - by rewrite (init_app_raises E a s h k).
  - rewrite (init_app_connects E a s h k H1 H2 Hc).
    match goal with
    | |- context [setup_connection E ?s'] =>
        exact (proj2 (proj2 (proj2 (setup_connection_final E s'))))
    end.
Qed.

Lemma invoke_next_handle (c : method_call) (s : state) :
  (next_handle (drv s) ≤ next_handle (drv (final (invoke E c s))))%nat.
Proof.
  destruct c as [a| | | |n|[| |]]; simpl.
  - apply init_app_next_handle.
  - by rewrite shutdown_connection_eq.
  - apply setup_connection_final.
  - by rewrite sync_db_final.
  - by rewrite set_keyspace_next_handle.
  - apply setup_connection_final.
  - apply setup_connection_final.
  - by rewrite shutdown_connection_eq.
Qed.

(** Whatever is called, the objects the imported names refer to remain
    older than anything [connection.setup] creates from then on. *)
Lemma imported_before_invoke (c : method_call) (s : state) :
  imported_before E (drv s) →
  imported_before E (drv (final (invoke E c s))).
Proof.
  intros [Hc Hs]. pose proof (invoke_next_handle c s).
  split; intros h Hh; [specialize (Hc h Hh) | specialize (Hs h Hh)]; lia.
Qed.

(** Two connects in a row, from any state in which the connect procedure
    returns: the handle of the first is still live next to the handle of the
    second, and between the two [connection.setup] calls the second connect
    makes exactly the calls [shutdown_connection] always makes. *)
Lemma setup_connection_twice (s : state) (a : setup_args) :
  imported_before E (drv s) → connect_args (self s) = Some a →
  colliding_key (kwargs a) = None →
  let h := next_handle (drv s) in
  let r1 := setup_connection E s in
  let r2 := setup_connection E (final r1) in
  outcome r2 = Ok tt ∧
  trace r2 = shutdown_calls E ++ [ConnectionSetup a (S h)] ∧
  (ClusterShutdown h ∉ trace r2) ∧ (SessionShutdown h ∉ trace r2) ∧
  {[h; S h]} ⊆ live_clusters (drv (final r2)) ∧
  {[h; S h]} ⊆ live_sessions (drv (final r2)).
Proof.
  intros [Hc Hs] Ha Hbag h r1 r2.
  assert (H2 : r2 = (Ok tt,
                     {| self := self s;
                        drv := reconnected E (reconnected E (drv s));
                        sig := sig s |},
                     shutdown_calls E ++ [ConnectionSetup a (S h)])).
  { unfold r2, r1. rewrite (setup_connection_eq E s a Ha Hbag).
    exact (setup_connection_eq E
             {| self := self s; drv := reconnected E (drv s); sig := sig s |}
             a Ha Hbag). }
  rewrite H2. clear H2 r1 r2. unfold outcome, trace, final; simpl.
  assert (Hnc : cluster E ≠ Some h).
  { intros Heq. specialize (Hc h Heq). unfold h in Hc. lia. }
  assert (Hns : session E ≠ Some h).
  { intros Heq. specialize (Hs h Heq). unfold h in Hs. lia. }
  split; [reflexivity |]. split; [reflexivity |].
  split; [| split].
  - rewrite elem_of_app, (proj1 (shutdown_calls_imported E h)).
    rewrite list_elem_of_singleton. intros [? | Heq]; [done | discriminate].
  - rewrite elem_of_app, (proj2 (shutdown_calls_imported E h)).
    rewrite list_elem_of_singleton. intros [? | Heq]; [done | discriminate].
  - unfold h in *. clear Hnc Hns h Ha. split.
    + destruct (cluster E) as [c|]; [| clear Hc Hs; set_solver].
      specialize (Hc c eq_refl). clear Hs.
      assert (c ≠ next_handle (drv s)) by lia.
      assert (c ≠ S (next_handle (drv s))) by lia. clear Hc. set_solver.
    + destruct (session E) as [c|]; [| clear Hc Hs; set_solver].
      specialize (Hs c eq_refl). clear Hc.
      assert (c ≠ next_handle (drv s)) by lia.
      assert (c ≠ S (next_handle (drv s))) by lia. clear Hs. set_solver.
Qed.

End Imported.

(** * The code at particular inputs *)

(** C1. With an empty host list and an empty keyspace [init_app] does not
    raise: it goes on to the connect procedure, which hands the empty host
    list to [connection.setup] and leaves a live handle created from it. *)
Theorem init_app_empty_hosts_empty_keyspace (E : env) (s : state) :
  outcome (init_app E app_nothing s) = Ok tt ∧
  trace (init_app E app_nothing s)
  = shutdown_calls E ++
    [ConnectionSetup
       {| hosts := []; default_keyspace := ""; consistency := 1;
          lazy_connect := false; retry_connect := false; kwargs := [] |}
       (next_handle (drv s))] ∧
  conn_cluster (drv (final (init_app E app_nothing s)))
  = Some (next_handle (drv s)) ∧
  next_handle (drv s) ∈ live_clusters (drv (final (init_app E app_nothing s))) ∧
  next_handle (drv s) ∈ live_sessions (drv (final (init_app E app_nothing s))).
Proof.
  rewrite (init_app_connects E app_nothing s [] "" eq_refl eq_refl eq_refl).
  rewrite (setup_connection_eq E _
             {| hosts := []; default_keyspace := ""; consistency := 1;
                lazy_connect := false; retry_connect := false; kwargs := [] |})
    by reflexivity.
  unfold outcome, trace, final; simpl. repeat split; set_solver.
Qed.

(** C2. In a process that imported the extension before connecting, after
    [db = CQLAlchemy(app)] (handle 0), two calls of [setup_connection] in a
    row: the second makes no [shutdown] call at all, and the handles of the
    construction, of the first call and of the second call are all live. *)
Theorem setup_connection_twice_leaks :
  let E := env_fresh classes_spec in
  let r1 := setup_connection E state_bound in
  let r2 := setup_connection E (final r1) in
  outcome r1 = Ok tt ∧ outcome r2 = Ok tt ∧
  conn_cluster (drv (final r1)) = Some 1 ∧
  conn_session (drv (final r1)) = Some 1 ∧
  trace r2
  = [ConnectionSetup
       {| hosts := ["10.0.0.1"]; default_keyspace := "ks1"; consistency := 1;
          lazy_connect := false; retry_connect := false; kwargs := [] |} 2] ∧
  live_clusters (drv (final r2)) = {[0; 1; 2]} ∧
  live_sessions (drv (final r2)) = {[0; 1; 2]}.
Proof. vm_compute. repeat split. Qed.

(** C4. A concrete model [D] with a concrete subclass [E]: [E] is a concrete
    subclass of the base, discovery returns [D] alone, and [sync_db] calls
    [sync_table] on [D] and not on [E]. *)
Theorem sync_db_skips_subclass_of_concrete :
  classes_in_order classes_nested = true ∧
  subclass_of classes_nested 0 2 ∧ concrete classes_nested 2 ∧
  get_subclasses classes_nested (S (length classes_nested)) 0 = Some [1] ∧
  sync_db (env_fresh classes_nested) state_fresh
  = (Ok tt, state_fresh, [SyncTable 1]).
Proof.
  split; [reflexivity |]. split; [| split; [| split; reflexivity]].
  - eapply subclass_trans; eapply subclass_direct;
      first [reflexivity | repeat constructor].
  - eexists. split; reflexivity.
Qed.

(** C7. A manager made by [CQLAlchemy()] and bound with [init_app(app)] for
    the scenario's configuration: the bind returns normally and the manager
    remembers the configured keyspace, but it has no application on it, so
    [set_keyspace()] raises [AttributeError] and sets neither the default
    keyspace nor the remembered keyspace. *)
Theorem set_keyspace_no_argument_after_init_app (E : env) (s : state) :
  let r := (__init__ E None >> init_app E app_ks1) s in
  outcome r = Ok tt ∧
  app (self (final r)) = None ∧
  _keyspace_ (self (final r)) = Some "ks1" ∧
  set_keyspace None (final r)
  = (Raise (AttributeError "config"), final r, []).
Proof.
  intros r. subst r. unfold __init__, bind, modify_self; simpl.
  rewrite (init_app_connect_ok E app_ks1 _ ["10.0.0.1"] "ks1"
             eq_refl eq_refl eq_refl eq_refl).
  split; [reflexivity |]. split; [reflexivity |]. split; [reflexivity |].
  apply set_keyspace_no_app. reflexivity.
Qed.

(** The spec's example of discovery: [B], [C] and [D], each once. *)
Example get_subclasses_spec_example :
  get_subclasses classes_spec (S (length classes_spec)) 0 = Some [2; 3; 4] ∧
  sync_db (env_fresh classes_spec) state_fresh
  = (Ok tt, state_fresh, [SyncTable 2; SyncTable 3; SyncTable 4]).
Proof. split; reflexivity. Qed.

(** The spec's scenario: bind, then [sync_db] with one concrete model. *)
Example scenario_one_model :
  let E := env_fresh [mk_class "Model" true [1]; mk_class "M" false []] in
  let r := (init_app E app_ks1 >> sync_db E) state_fresh in
  outcome r = Ok tt ∧ table_syncs 1 (trace r) = 1 ∧
  live_clusters (drv (final r)) = {[0]}.
Proof. vm_compute. repeat split. Qed.

(** C6, as stated. With a non-empty host list and a keyspace: a bag of extra
    options that repeats [consistency] makes the bind raise [TypeError] at
    the connect call; and a bind in the process of [state_bound], which
    already holds the live handle 0, returns normally with two handles
    live. *)
Lemma init_app_not_always_one_handle :
  outcome (init_app (env_fresh classes_spec) app_colliding state_fresh)
  = Raise (TypeError "consistency") ∧
  outcome (init_app (env_fresh classes_spec) app_ks1 state_bound) = Ok tt ∧
  live_clusters
    (drv (final (init_app (env_fresh classes_spec) app_ks1 state_bound)))
  = {[0; 1]} ∧
  live_sessions
    (drv (final (init_app (env_fresh classes_spec) app_ks1 state_bound)))
  = {[0; 1]}.
Proof. vm_compute. repeat split. Qed.

(** C5, as stated: a bind that raises [NoConfig] on a new manager leaves the
    manager with six attributes it did not have. *)
Lemma init_app_failed_bind_changes_manager :
  outcome (init_app (env_fresh classes_spec) app_no_hosts state_fresh)
  = Raise NoConfig ∧
  self (final (init_app (env_fresh classes_spec) app_no_hosts state_fresh))
  ≠ self state_fresh.
Proof. split; [reflexivity |]. vm_compute. discriminate. Qed.

(** * The theorems at concrete inputs *)

Lemma shutdown_connection_idempotent_witness :
  final (shutdown_connection (env_fresh classes_spec) state_fresh)
  = state_fresh.
Proof.
  exact (proj1 (proj2 (shutdown_connection_idempotent
                         (env_fresh classes_spec) state_fresh))
           eq_refl eq_refl).
Defined.

Lemma shutdown_connection_spares_new_connection_witness :
  imported_before (env_fresh classes_spec) (drv state_bound) ∧
  outcome (setup_connection (env_fresh classes_spec) state_bound) = Ok tt ∧
  ClusterShutdown 1
  ∉ trace (shutdown_connection (env_fresh classes_spec)
             (final (setup_connection (env_fresh classes_spec) state_bound))).
Proof.
  assert (Hi : imported_before (env_fresh classes_spec) (drv state_bound)).
  { split; intros h Hh; discriminate Hh. }
  assert (Ho : outcome (setup_connection (env_fresh classes_spec) state_bound)
               = Ok tt) by reflexivity.
  split; [exact Hi |]. split; [exact Ho |].
  destruct (shutdown_connection_spares_new_connection
              (env_fresh classes_spec) state_bound Hi Ho)
    as (_ & _ & _ & _ & _ & H).
  exact (proj1 (H _)).
Defined.

Lemma init_app_binds_witness :
  outcome (init_app (env_fresh classes_spec) app_ks1 state_fresh) = Ok tt ∧
  live_clusters
    (drv (final (init_app (env_fresh classes_spec) app_ks1 state_fresh)))
  = {[0]}.
Proof.
  destruct (init_app_binds (env_fresh classes_spec) app_ks1 state_fresh
              ["10.0.0.1"] "ks1" eq_refl ltac:(discriminate)
              eq_refl eq_refl)
    as (H1 & _ & _ & _ & _ & _ & _ & H2).
  split; [exact H1 | exact (proj1 (H2 eq_refl eq_refl))].
Defined.

Lemma init_app_NoConfig_effect_witness :
  outcome (init_app (env_fresh classes_spec) app_no_hosts state_fresh)
  = Raise NoConfig ∧
  trace (init_app (env_fresh classes_spec) app_no_hosts state_fresh) = [] ∧
  outcome (new_CQLAlchemy (env_fresh classes_spec) (Some app_no_hosts)
             state_fresh)
  = Raise NoConfig.
Proof.
  split; [reflexivity |].
  destruct (init_app_NoConfig_effect (env_fresh classes_spec) app_no_hosts
              state_fresh eq_refl)
    as (h & k & _ & _ & _ & Ht & Hn).
  split; [exact Ht | exact Hn].
Defined.

Lemma set_keyspace_sets_and_persists_witness :
  DEFAULT_KEYSPACE (drv (final (set_keyspace None state_bound)))
  = Some "ks1" ∧
  DEFAULT_KEYSPACE
    (drv (run (env_fresh classes_spec)
            [call_setup_connection; call_sync_db; call_shutdown_connection]
            (final (set_keyspace (Some "other") state_bound))).1)
  = Some "other".
Proof.
  destruct (set_keyspace_sets_and_persists (env_fresh classes_spec)
              state_bound) as [H1 H2].
  split.
  - exact (proj1 (proj2 (H1 app_ks1 "ks1" eq_refl eq_refl))).
  - destruct (H2 "other" ltac:(discriminate)) as (_ & _ & _ & H).
    exact (proj1 (H [call_setup_connection; call_sync_db;
                     call_shutdown_connection]
                   ltac:(repeat constructor))).
Defined.

Lemma set_keyspace_falsy_argument_witness :
  DEFAULT_KEYSPACE (drv (final (set_keyspace (Some "") state_bound)))
  = Some "ks1" ∧
  _keyspace_ (self (final (set_keyspace (Some "") state_bound)))
  = Some "ks1".
Proof.
  destruct (set_keyspace_falsy_argument state_bound) as (_ & _ & H).
  destruct (H app_ks1 "ks1" eq_refl eq_refl) as (_ & Hd & Hk & _).
  split; [exact Hd | exact Hk].
Defined.

Lemma sync_db_repeats_diamond_witness :
  ∃ l, get_subclasses classes_diamond (S (length classes_diamond)) 0 = Some l ∧
       (2 ≤ times 3 l)%nat ∧
       outcome (sync_db (env_fresh classes_diamond) state_fresh) = Ok tt ∧
       (2 ≤ table_syncs 3
              (trace (sync_db (env_fresh classes_diamond) state_fresh)))%nat.
Proof.
  apply (sync_db_repeats_diamond (env_fresh classes_diamond) state_fresh
           1 2 3 [1] [2] (mk_class "A1" true [3]) (mk_class "A2" true [3])).
  - reflexivity.
  - eapply abstract_path_step;
      [reflexivity | reflexivity | repeat constructor | constructor].
  - eapply abstract_path_step;
      [reflexivity | reflexivity | repeat constructor | constructor].
  - discriminate.
  - reflexivity.
  - reflexivity.
  - repeat constructor.
  - reflexivity.
  - reflexivity.
  - repeat constructor.
  - eexists. split; reflexivity.
Defined.

(** * Further properties of the methods *)

Section Bind.
Context (E : env).

Lemma init_app_outcome_eq (a : flask_app) (s : state) :
  outcome (init_app E a s)
  = match CASSANDRA_HOSTS (config a), CASSANDRA_KEYSPACE (config a) with
    | None, _ => Raise (KeyError "CASSANDRA_HOSTS")
    | Some _, None => Raise (KeyError "CASSANDRA_KEYSPACE")
    | Some h, Some k =>
        if negb (truthy_list h) && truthy_str k then Raise NoConfig
        else
          match colliding_key
                  (default [] (CASSANDRA_SETUP_KWARGS (config a))) with
          | Some key => Raise (TypeError key)
          | None => Ok tt
          end
    end.
Proof.
  destruct (CASSANDRA_HOSTS (config a)) as [h|] eqn:H1.
  2: { by rewrite init_app_no_hosts_key. }
  destruct (CASSANDRA_KEYSPACE (config a)) as [k|] eqn:H2.
  2: { by rewrite (init_app_no_keyspace_key E a s h). }
  destruct (negb (truthy_list h) && truthy_str k) eqn:Hc.
  - by rewrite (init_app_raises E a s h k).
  - destruct (colliding_key _) as [key|] eqn:Hbag.
    + by rewrite (init_app_connect_collides E a s h k key).
    + by rewrite (init_app_connect_ok E a s h k).
Qed.

(** X1. The outcome of [init_app] is fixed by the configuration alone:
    [KeyError] for the first required key that is absent, hosts before
    keyspace; [NoConfig] when the host list is empty and the keyspace is not;
    [TypeError] when the bag of extra options repeats a keyword that the
    connect call writes out; a normal return otherwise, whatever the manager,
    the process and the installed frameworks are. *)
Theorem init_app_outcome (a : flask_app) (s : state) :
  outcome (init_app E a s)
  = match CASSANDRA_HOSTS (config a), CASSANDRA_KEYSPACE (config a) with
    | None, _ => Raise (KeyError "CASSANDRA_HOSTS")
    | Some _, None => Raise (KeyError "CASSANDRA_KEYSPACE")
    | Some h, Some k =>
        if negb (truthy_list h) && truthy_str k then Raise NoConfig
        else
          match colliding_key
                  (default [] (CASSANDRA_SETUP_KWARGS (config a))) with
          | Some key => Raise (TypeError key)
          | None => Ok tt
          end
    end.
Proof. exact (init_app_outcome_eq a s). Qed.

Lemma init_app_ok_inv (a : flask_app) (s : state) :
  outcome (init_app E a s) = Ok tt →
  ∃ h k, CASSANDRA_HOSTS (config a) = Some h ∧
         CASSANDRA_KEYSPACE (config a) = Some k ∧
         negb (truthy_list h) && truthy_str k = false ∧
         colliding_key (default [] (CASSANDRA_SETUP_KWARGS (config a))) = None.
Proof.
  rewrite init_app_outcome_eq.
  destruct (CASSANDRA_HOSTS (config a)) as [h|]; [| discriminate].
  destruct (CASSANDRA_KEYSPACE (config a)) as [k|]; [| discriminate].
  destruct (negb (truthy_list h) && truthy_str k) eqn:Hc; [discriminate |].
  destruct (colliding_key _) eqn:Hbag; [discriminate |].
  intros _. exists h, k. repeat split; assumption.
Qed.

(** X2. A bind that returns normally has handed the driver the configured
    hosts and keyspace and, for each optional key, the configured value or
    else the default: consistency 1, no lazy connect, no retry, no extra
    options. The same six values are what the manager remembers. *)
Theorem init_app_passes_configuration (a : flask_app) (s : state)
    (h : list string) (k : string) :
  outcome (init_app E a s) = Ok tt →
  CASSANDRA_HOSTS (config a) = Some h →
  CASSANDRA_KEYSPACE (config a) = Some k →
  trace (init_app E a s)
  = shutdown_calls E ++
    [ConnectionSetup
       {| hosts := h; default_keyspace := k;
          consistency := default 1%Z (CASSANDRA_CONSISTENCY (config a));
          lazy_connect := default false (CASSANDRA_LAZY_CONNECT (config a));
          retry_connect := default false (CASSANDRA_RETRY_CONNECT (config a));
          kwargs := default [] (CASSANDRA_SETUP_KWARGS (config a)) |}
       (next_handle (drv s))] ∧
  connect_args (self (final (init_app E a s)))
  = Some {| hosts := h; default_keyspace := k;
            consistency := default 1%Z (CASSANDRA_CONSISTENCY (config a));
            lazy_connect := default false (CASSANDRA_LAZY_CONNECT (config a));
            retry_connect :=
              default false (CASSANDRA_RETRY_CONNECT (config a));
            kwargs := default [] (CASSANDRA_SETUP_KWARGS (config a)) |} ∧
  app (self (final (init_app E a s))) = app (self s) ∧
  Model (self (final (init_app E a s))) = Model (self s).
Proof.
  intros Hok H1 H2.
  destruct (init_app_ok_inv a s Hok) as (h' & k' & H1' & H2' & Hc & Hbag).
  assert (h' = h) as -> by congruence. assert (k' = k) as -> by congruence.
  rewrite (init_app_connect_ok E a s h k H1 H2 Hc Hbag). repeat split.
Qed.

Lemma init_app_failure_state (a : flask_app) (s : state) (e : exn) :
  outcome (init_app E a s) = Raise e →
  (e = NoConfig ∨ ∃ key, e = KeyError key) →
  trace (init_app E a s) = [] ∧
  drv (final (init_app E a s)) = drv s ∧
  sig (final (init_app E a s)) = sig s.
Proof.
  intros Hr He.
  destruct (CASSANDRA_HOSTS (config a)) as [h|] eqn:H1.
  2: { by rewrite init_app_no_hosts_key. }
  destruct (CASSANDRA_KEYSPACE (config a)) as [k|] eqn:H2.
  2: { by rewrite (init_app_no_keyspace_key E a s h). }
  destruct (negb (truthy_list h) && truthy_str k) eqn:Hc.
  - by rewrite (init_app_raises E a s h k).
  - rewrite init_app_outcome_eq, H1, H2, Hc in Hr.
    destruct (colliding_key _); [| discriminate].
    injection Hr as <-. destruct He as [? | [? ?]]; discriminate.
Qed.

(** X3. A bind that raises [KeyError] or [NoConfig], that is one stopped
    before the registrations, has made no driver call, has registered no
    callback and has left the driver as it was. A bind that raises
    [TypeError] is stopped at the connect call: by then the callbacks are
    registered and [shutdown_connection] has run. *)
Theorem init_app_failure_leaves_process (a : flask_app) (s : state) (e : exn) :
  outcome (init_app E a s) = Raise e →
  ((e = NoConfig ∨ ∃ key, e = KeyError key) →
   trace (init_app E a s) = [] ∧
   drv (final (init_app E a s)) = drv s ∧
   sig (final (init_app E a s)) = sig s) ∧
  (∀ key, e = TypeError key →
   trace (init_app E a s) = trace (shutdown_connection E s) ∧
   drv (final (init_app E a s)) = drv (final (shutdown_connection E s)) ∧
   sig (final (init_app E a s)) = registered E (sig s)).
Proof.
  intros Hr. split; [exact (init_app_failure_state a s e Hr) |].
  intros key ->. rewrite shutdown_connection_eq.
  rewrite init_app_outcome_eq in Hr.
  destruct (CASSANDRA_HOSTS (config a)) as [h|] eqn:H1; [| discriminate].
  destruct (CASSANDRA_KEYSPACE (config a)) as [k|] eqn:H2; [| discriminate].
  destruct (negb (truthy_list h) && truthy_str k) eqn:Hc; [discriminate |].
  destruct (colliding_key _) as [key'|] eqn:Hbag; [| discriminate].
  by rewrite (init_app_connect_collides E a s h k key').
Qed.

Lemma set_keyspace_sig (n : option string) (s : state) :
  sig (final (set_keyspace n s)) = sig s.
Proof.
  unfold set_keyspace, self_app_config_keyspace, bind, get_self, getitem.
  destruct s as [[[a|] md h k co l r kw] d g];
    destruct n as [[|c n]|]; simpl; try reflexivity;
    destruct (CASSANDRA_KEYSPACE (config a)); reflexivity.
Qed.

(** X4. Callbacks are handed to the frameworks only by a bind that gets past
    validation, whether it then returns or is stopped by [TypeError] at the
    connect call: one callback goes to the postfork list when uWSGI is
    importable and one to each of the three Celery signals when Celery is.
    A bind stopped by [KeyError] or [NoConfig] and every other method hand
    over nothing. A second bind therefore hands the callbacks over a second
    time. *)
Theorem registries_change_only_on_bind (c : method_call) (s : state) :
  sig (final (invoke E c s))
  = match c with
    | call_init_app a =>
        match outcome (init_app E a s) with
        | Raise (KeyError _) | Raise NoConfig => sig s
        | _ => registered E (sig s)
        end
    | _ => sig s
    end.
Proof.
  destruct c as [a| | | |n|[| |]]; simpl.
  - rewrite init_app_outcome_eq.
    destruct (CASSANDRA_HOSTS (config a)) as [h|] eqn:H1.
    2: { by rewrite init_app_no_hosts_key. }
    destruct (CASSANDRA_KEYSPACE (config a)) as [k|] eqn:H2.
    2: { by rewrite (init_app_no_keyspace_key E a s h). }
    destruct (negb (truthy_list h) && truthy_str k) eqn:Hc.
    { by rewrite (init_app_raises E a s h k). }
    destruct (colliding_key _) as [key|] eqn:Hbag.
    + by rewrite (init_app_connect_collides E a s h k key).
    + by rewrite (init_app_connect_ok E a s h k).
  - by rewrite shutdown_connection_eq.
  - apply setup_connection_final.
  - by rewrite sync_db_final.
  - apply set_keyspace_sig.
  - apply setup_connection_final.
  - apply setup_connection_final.
  - by rewrite shutdown_connection_eq.
Qed.

(** X5. [setup_connection] on a manager that has no [_hosts_] attribute, one
    that was never bound: it first runs [shutdown_connection], so the objects
    the imported names refer to are shut down, then raises [AttributeError]
    for [_hosts_]. It ends in the state [shutdown_connection] alone gives,
    having made exactly the calls of [shutdown_connection]:
    [connection.setup] is not called. *)
Theorem setup_connection_unbound (s : state) :
  _hosts_ (self s) = None →
  setup_connection E s
  = (Raise (AttributeError "_hosts_"),
     final (shutdown_connection E s), trace (shutdown_connection E s)).
Proof.
  intros Hh. unfold setup_connection, bind. rewrite shutdown_connection_eq.
  destruct s as [[ap md h k c l r kw] d g]. simpl in Hh. subst h.
  cbn -[released shutdown_calls]. by rewrite app_nil_r.
Qed.

Lemma reconnected_released (d : driver) :
  reconnected E (released E d) = reconnected E d.
Proof. unfold reconnected. by rewrite released_idemp. Qed.

(** X6. A [shutdown_connection] before [setup_connection] changes nothing:
    the connect procedure ends in the same state with the same outcome,
    whether it returns or raises. *)
Theorem setup_connection_absorbs_shutdown (s : state) :
  final (setup_connection E (final (shutdown_connection E s)))
  = final (setup_connection E s) ∧
  outcome (setup_connection E (final (shutdown_connection E s)))
  = outcome (setup_connection E s).
Proof.
  rewrite shutdown_connection_eq. unfold final at 2 4; cbn [fst snd].
  destruct (setup_connection_cases E s)
    as [(Ha & ->) | [(a & key & Ha & Hk & ->) | (a & Ha & Hk & ->)]].
  - rewrite (setup_connection_fails E
               {| self := self s; drv := released E (drv s); sig := sig s |}
               Ha).
    unfold final, outcome; cbn -[released]. by rewrite released_idemp.
  - rewrite (setup_connection_collides E
               {| self := self s; drv := released E (drv s); sig := sig s |}
               a key Ha Hk).
    unfold final, outcome; cbn -[released]. by rewrite released_idemp.
  - rewrite (setup_connection_eq E
               {| self := self s; drv := released E (drv s); sig := sig s |}
               a Ha Hk).
    unfold final, outcome; cbn -[reconnected released].
    by rewrite reconnected_released.
Qed.

End Bind.

Section Lifetime.
Context (E : env).

Lemma released_keeps (d : driver) (h : handle) :
  (cluster E ≠ Some h → h ∈ live_clusters d →
   h ∈ live_clusters (released E d)) ∧
  (session E ≠ Some h → h ∈ live_sessions d →
   h ∈ live_sessions (released E d)).
Proof.
  unfold released; simpl. split; intros Hne Hin.
  - destruct (cluster E) as [c|]; [| done].
    assert (c ≠ h) by congruence. set_solver.
  - destruct (session E) as [c|]; [| done].
    assert (c ≠ h) by congruence. set_solver.
Qed.

Lemma setup_connection_keeps (s : state) (h : handle) :
  (cluster E ≠ Some h → h ∈ live_clusters (drv s) →
   h ∈ live_clusters (drv (final (setup_connection E s)))) ∧
  (session E ≠ Some h → h ∈ live_sessions (drv s) →
   h ∈ live_sessions (drv (final (setup_connection E s)))).
Proof.
  destruct (released_keeps (drv s) h) as [Hc Hs].
  destruct (setup_connection_cases E s)
    as [(_ & ->) | [(a & key & _ & _ & ->) | (a & _ & _ & ->)]];
    unfold final; cbn -[released]; [by split | by split |].
  split; intros Hne Hin; [specialize (Hc Hne Hin) | specialize (Hs Hne Hin)];
    set_solver.
Qed.

Lemma setup_connection_calls (s : state) (e : call) :
  e ∈ trace (setup_connection E s) →
  e ∈ shutdown_calls E ∨ ∃ a n, e = ConnectionSetup a n.
Proof.
  destruct (setup_connection_cases E s)
    as [(_ & ->) | [(a & key & _ & _ & ->) | (a & _ & _ & ->)]];
    unfold trace; simpl; auto.
  rewrite elem_of_app, list_elem_of_singleton. intros [? | ->]; eauto.
Qed.

Lemma init_app_cases (a : flask_app) (s : state) :
  (∃ m, init_app E a s = (Raise (KeyError "CASSANDRA_HOSTS"), s, []) ∧
        m = self s) ∨
  (∃ e m, init_app E a s
          = (Raise e, {| self := m; drv := drv s; sig := sig s |}, []) ∧
          app m = app (self s)) ∨
  (∃ m, init_app E a s
        = setup_connection E
            {| self := m; drv := drv s; sig := registered E (sig s) |} ∧
        app m = app (self s)).
Proof.
  destruct (CASSANDRA_HOSTS (config a)) as [h|] eqn:H1.
  2: { left. exists (self s). by rewrite init_app_no_hosts_key. }
  right.
  destruct (CASSANDRA_KEYSPACE (config a)) as [k|] eqn:H2.
  2: { left. eexists _, _.
       rewrite (init_app_no_keyspace_key E a s h) by done. done. }
  destruct (negb (truthy_list h) && truthy_str k) eqn:Hc.
  - left. eexists _, _. rewrite (init_app_raises E a s h k) by done. done.
  - right. eexists. rewrite (init_app_connects E a s h k H1 H2 Hc). done.
Qed.

Lemma set_keyspace_cases (arg : option string) (s : state) :
  set_keyspace arg s = (Raise (AttributeError "config"), s, []) ∨
  set_keyspace arg s = (Raise (KeyError "CASSANDRA_KEYSPACE"), s, []) ∨
  ∃ n, set_keyspace arg s = (Ok tt, keyspace_assigned n s, []).
Proof.
  unfold set_keyspace, self_app_config_keyspace, bind, get_self, getitem,
    keyspace_assigned.
  destruct s as [[[a|] md h k co l r kw] d g];
    destruct arg as [[|c n]|]; simpl; eauto;
    destruct (CASSANDRA_KEYSPACE (config a)); simpl; eauto.
Qed.

Lemma invoke_keeps (c : method_call) (s : state) (h : handle) :
  (cluster E ≠ Some h → h ∈ live_clusters (drv s) →
   h ∈ live_clusters (drv (final (invoke E c s)))) ∧
  (session E ≠ Some h → h ∈ live_sessions (drv s) →
   h ∈ live_sessions (drv (final (invoke E c s)))).
Proof.
  destruct c as [a| | | |n|[| |]]; simpl.
  - destruct (init_app_cases a s)
      as [(m & -> & _) | [(e & m & -> & _) | (m & -> & _)]];
      [done | done |].
    match goal with
    | |- context [setup_connection E ?s'] =>
        exact (setup_connection_keeps s' h)
    end.
  - rewrite shutdown_connection_eq. apply released_keeps.
  - apply setup_connection_keeps.
  - by rewrite sync_db_final.
  - destruct (set_keyspace_cases n s) as [-> | [-> | [x ->]]]; done.
  - apply setup_connection_keeps.
  - apply setup_connection_keeps.
  - rewrite shutdown_connection_eq. apply released_keeps.
Qed.

Lemma sync_db_calls (s : state) (e : call) :
  e ∈ trace (sync_db E s) → ∃ x, e = SyncTable x.
Proof.
  unfold sync_db, bind, get_self.
  destruct (get_subclasses _ _ _) as [l|]; unfold trace; simpl.
  - rewrite for_each_sync_table. simpl.
    intros (c & -> & _)%list_elem_of_fmap. eauto.
  - by intros ?%elem_of_nil.
Qed.

Lemma invoke_calls (c : method_call) (s : state) (e : call) :
  e ∈ trace (invoke E c s) →
  e ∈ shutdown_calls E ∨ (∃ a n, e = ConnectionSetup a n) ∨
  ∃ x, e = SyncTable x.
Proof.
  destruct c as [a| | | |n|[| |]]; simpl.
  - destruct (init_app_cases a s)
      as [(m & -> & _) | [(e' & m & -> & _) | (m & -> & _)]];
      [by intros ?%elem_of_nil | by intros ?%elem_of_nil |].
    intros [? | ?]%setup_connection_calls; auto.
  - rewrite shutdown_connection_eq. auto.
  - intros [? | ?]%setup_connection_calls; auto.
  - intros ?%sync_db_calls; auto.
  - destruct (set_keyspace_cases n s) as [-> | [-> | [x ->]]];
      by intros ?%elem_of_nil.
  - intros [? | ?]%setup_connection_calls; auto.
  - intros [? | ?]%setup_connection_calls; auto.
  - rewrite shutdown_connection_eq. auto.
Qed.

(** X7. No sequence of calls of the manager's methods and callbacks ever
    shuts down a cluster client or session other than the ones the imported
    names refer to: such an object, once live, is live after every sequence,
    and no [shutdown] call on it appears in the trace. *)
Theorem only_imported_objects_are_released (cs : list method_call)
    (s : state) (h : handle) :
  cluster E ≠ Some h → session E ≠ Some h →
  (h ∈ live_clusters (drv s) → h ∈ live_clusters (drv (run E cs s).1)) ∧
  (h ∈ live_sessions (drv s) → h ∈ live_sessions (drv (run E cs s).1)) ∧
  (ClusterShutdown h ∉ (run E cs s).2) ∧
  (SessionShutdown h ∉ (run E cs s).2).
Proof.
  intros Hc Hs. revert s.
  induction cs as [|c cs IH]; intros s; simpl.
  - repeat split; try done; by intros ?%elem_of_nil.
  - destruct (invoke_keeps c s h) as [Hkc Hks].
    specialize (IH (final (invoke E c s))).
    destruct (run E cs (final (invoke E c s))) as [s' t]; simpl in *.
    destruct IH as (IHc & IHs & IHtc & IHts).
    split; [auto |]. split; [auto |].
    split; intros [Hin | Hin]%elem_of_app; try done.
    + apply invoke_calls in Hin as [Hin | [(a & n & ?) | (x & ?)]];
        try discriminate.
      by apply (shutdown_calls_imported E h) in Hin.
    + apply invoke_calls in Hin as [Hin | [(a & n & ?) | (x & ?)]];
        try discriminate.
      by apply (shutdown_calls_imported E h) in Hin.
Qed.

(** X9. [set_keyspace] makes no driver call and either fails, with
    [AttributeError] for want of an application on the manager or [KeyError]
    for want of the keyspace key, in which case nothing at all has changed,
    or returns having assigned one name to both the default keyspace and the
    remembered keyspace and nothing else: the connection, the live objects
    and the registries are as before. *)
Theorem set_keyspace_all_or_nothing (arg : option string) (s : state) :
  trace (set_keyspace arg s) = [] ∧
  ((final (set_keyspace arg s) = s ∧
    (outcome (set_keyspace arg s) = Raise (AttributeError "config") ∨
     outcome (set_keyspace arg s) = Raise (KeyError "CASSANDRA_KEYSPACE"))) ∨
   (outcome (set_keyspace arg s) = Ok tt ∧
    ∃ n, final (set_keyspace arg s) = keyspace_assigned n s ∧
         (truthy_arg arg = true → arg = Some n))).
Proof.
  unfold set_keyspace, self_app_config_keyspace, bind, get_self, getitem,
    keyspace_assigned.
  destruct s as [[[a|] md h k co l r kw] d g];
    destruct arg as [[|c n]|]; simpl;
    try destruct (CASSANDRA_KEYSPACE (config a)); simpl;
    (split; [reflexivity |]);
    first [ left; split; [reflexivity | auto; fail]
          | right; split; [reflexivity |]; eexists; split;
            [reflexivity | first [discriminate | reflexivity]] ].
Qed.

(** X10. A call of [set_keyspace] with a name overrides whatever an earlier
    call did: after it the state is the one the call alone would give. In
    particular a repeated call with the same name changes nothing more. *)
Theorem set_keyspace_overrides (arg : option string) (n : string)
    (s : state) :
  n ≠ "" →
  final (set_keyspace (Some n) (final (set_keyspace arg s)))
  = final (set_keyspace (Some n) s).
Proof.
  intros Hn. rewrite (set_keyspace_named n s Hn).
  destruct (set_keyspace_cases arg s) as [-> | [-> | [x ->]]];
    unfold final at 2; cbn [fst snd];
    rewrite (set_keyspace_named n _ Hn); reflexivity.
Qed.

(** X11. The temporary switch of the docstring: on a manager that holds the
    application, whose remembered and default keyspace are the configured
    one, [set_keyspace(n)] followed by [set_keyspace()] gives back exactly
    the state before. *)
Theorem set_keyspace_round_trip (s : state) (a : flask_app) (k n : string) :
  app (self s) = Some a → CASSANDRA_KEYSPACE (config a) = Some k →
  DEFAULT_KEYSPACE (drv s) = Some k → _keyspace_ (self s) = Some k →
  n ≠ "" →
  outcome (set_keyspace None (final (set_keyspace (Some n) s))) = Ok tt ∧
  final (set_keyspace None (final (set_keyspace (Some n) s))) = s.
Proof.
  intros Ha Hk Hd Hm Hn. rewrite (set_keyspace_named n s Hn).
  change (final (Ok (), ?x, ?t)) with x.
  rewrite (set_keyspace_default _ a k) by (simpl; assumption).
  split; [reflexivity |]. unfold final; simpl.
  destruct s as [[ap md h ks co l r kw] [cc cs dk lc ls nh] g].
  simpl in *. subst. reflexivity.
Qed.

Lemma init_app_keeps_app (a : flask_app) (s : state) :
  app (self (final (init_app E a s))) = app (self s).
Proof.
  destruct (init_app_cases a s)
    as [(m & -> & _) | [(e & m & -> & Hm) | (m & -> & Hm)]];
    [done | done |].
  match goal with
  | |- context [setup_connection E ?s'] =>
      rewrite (proj1 (setup_connection_final E s'))
  end.
  exact Hm.
Qed.

(** X12. A manager made without an application and then bound with
    [init_app] has no application on it: [init_app] never assigns
    [self.app]. On it [set_keyspace()] raises [AttributeError] and changes
    nothing, while [set_keyspace(n)] with a name works. *)
Theorem set_keyspace_after_init_app_only (a : flask_app) (s : state) :
  let s1 := final ((__init__ E None >> init_app E a) s) in
  app (self s1) = None ∧
  set_keyspace None s1 = (Raise (AttributeError "config"), s1, []) ∧
  ∀ n, n ≠ "" →
       set_keyspace (Some n) s1 = (Ok tt, keyspace_assigned n s1, []).
Proof.
  intros s1.
  assert (Happ : app (self s1) = None).
  { unfold s1, __init__, bind, modify_self; simpl.
    match goal with
    | |- context [init_app E a ?s'] =>
        destruct (init_app E a s') as [[r s2] t2] eqn:Hi;
        pose proof (init_app_keeps_app a s') as Hk; rewrite Hi in Hk
    end.
    exact Hk. }
  split; [exact Happ |]. split.
  - by apply set_keyspace_no_app.
  - intros n Hn. by apply set_keyspace_named.
Qed.

(** X13. [CQLAlchemy(app)] does what [CQLAlchemy()] followed by
    [init_app(app)] does: the same driver calls, the same driver state and
    registries, the same outcome. The two managers differ in the [app]
    attribute and in nothing else. *)
Theorem constructor_is_init_app (a : flask_app) (s : state) :
  let r1 := __init__ E (Some a) s in
  let r2 := (__init__ E None >> init_app E a) s in
  outcome r1 = outcome r2 ∧ trace r1 = trace r2 ∧
  drv (final r1) = drv (final r2) ∧ sig (final r1) = sig (final r2) ∧
  self (final r1) = set_app (Some a) (self (final r2)) ∧
  app (self (final r2)) = None.
Proof.
  intros r1 r2. subst r1 r2. unfold __init__, bind, modify_self; simpl.
  destruct (CASSANDRA_HOSTS (config a)) as [h|] eqn:H1.
  2: { rewrite !init_app_no_hosts_key by done. done. }
  destruct (CASSANDRA_KEYSPACE (config a)) as [k|] eqn:H2.
  2: { rewrite !(init_app_no_keyspace_key E a _ h) by done. done. }
  destruct (negb (truthy_list h) && truthy_str k) eqn:Hc.
  - rewrite !(init_app_raises E a _ h k) by done. done.
  - destruct (colliding_key
                (default [] (CASSANDRA_SETUP_KWARGS (config a))))
      as [key|] eqn:Hbag.
    + rewrite !(init_app_connect_collides E a _ h k key) by done. done.
    + rewrite !(init_app_connect_ok E a _ h k) by done. done.
Qed.

End Lifetime.

(** * Further properties of subclass discovery *)

Section Hierarchies.
Context (tbl : list pyclass).

(** X16. [flatten] is concatenation in order: it agrees with the library's
    [concat], distributes over appending, gives back a list that was split
    into singletons, and has as many items as the sublists together. *)
Theorem flatten_laws {A} (ls ks : list (list A)) (l : list A) :
  flatten ls = concat ls ∧
  flatten (ls ++ ks) = flatten ls ++ flatten ks ∧
  flatten ((λ x, [x]) <$> l) = l ∧
  length (flatten ls) = sum_list (length <$> ls).
Proof.
  repeat split.
  - induction ls as [|l0 ls IH]; simpl; [done | by rewrite IH].
  - induction ls as [|l0 ls IH]; simpl; [done |].
    by rewrite IH, app_assoc.
  - induction l as [|x l IH]; [done |].
    rewrite fmap_cons. cbn [flatten app]. by rewrite IH.
  - induction ls as [|l0 ls IH]; [done |].
    rewrite fmap_cons. cbn [flatten sum_list sum_list_with].
    by rewrite length_app, IH.
Qed.

Lemma flatten_singletons (l : list cls) : flatten ((λ x, [x]) <$> l) = l.
Proof.
  induction l as [|x l IH]; [done |].
  rewrite fmap_cons. cbn [flatten app]. by rewrite IH.
Qed.

Lemma get_subclasses_concrete (n : nat) (c : cls) :
  concrete tbl c → get_subclasses tbl (S n) c = Some [c].
Proof. intros (ci & Hci & Hab). cbn [get_subclasses]. by rewrite Hci, Hab. Qed.

Lemma get_subclasses_flat (n : nat) (c : cls) (ci : pyclass) :
  tbl !! c = Some ci → __abstract__ ci = true →
  (∀ d, d ∈ __subclasses__ ci → concrete tbl d) →
  get_subclasses tbl (S (S n)) c = Some (__subclasses__ ci).
Proof.
  intros Hci Hab Hall.
  change (get_subclasses tbl (S (S n)) c)
    with (match tbl !! c with
          | None => None
          | Some ci =>
              if __abstract__ ci then
                flatten <$> mapM (get_subclasses tbl (S n)) (__subclasses__ ci)
              else Some [c]
          end).
  rewrite Hci, Hab.
  assert (Hm : mapM (get_subclasses tbl (S n)) (__subclasses__ ci)
               = Some ((λ x, [x]) <$> __subclasses__ ci)).
  { apply mapM_Some. revert Hall.
    induction (__subclasses__ ci) as [|d l IH]; intros Hall; [constructor |].
    constructor.
    - apply get_subclasses_concrete, Hall. set_solver.
    - apply IH. intros d' Hd'. apply Hall. set_solver. }
  rewrite Hm. simpl. by rewrite flatten_singletons.
Qed.

Lemma times_NoDup (x : cls) (l : list cls) : NoDup l → (times x l ≤ 1)%nat.
Proof.
  intros Hl%NoDup_ListNoDup. unfold times.
  exact (proj1 (NoDup_count_occ Nat.eq_dec l) Hl x).
Qed.

Lemma NoDup_flatten_lookup (ls : list (list cls)) (i : nat) (l : list cls) :
  NoDup (flatten ls) → ls !! i = Some l → NoDup l.
Proof.
  intros Hnd Hi. apply NoDup_ListNoDup, (NoDup_count_occ Nat.eq_dec).
  intros x.
  pose proof (times_flatten_lookup x ls i l Hi).
  pose proof (times_NoDup x _ Hnd). unfold times in *. lia.
Qed.

Lemma NoDup_flatten (ls : list (list cls)) :
  (∀ i l, ls !! i = Some l → NoDup l) →
  (∀ i j l k x, i ≠ j → ls !! i = Some l → ls !! j = Some k →
                x ∈ l → x ∈ k → False) →
  NoDup (flatten ls).
Proof.
  induction ls as [|l0 ls IH]; intros Hnd Hdis; simpl; [constructor |].
  apply NoDup_app. split; [exact (Hnd 0 l0 eq_refl) |]. split.
  - intros x Hx (k & Hk & Hxk)%elem_of_flatten.
    apply list_elem_of_lookup in Hk as [j Hj].
    exact (Hdis 0 (S j) l0 k x ltac:(lia) eq_refl Hj Hx Hxk).
  - apply IH.
    + intros i l Hi. exact (Hnd (S i) l Hi).
    + intros i j l k x Hij Hi Hj. apply (Hdis (S i) (S j) l k x); [lia | done..].
Qed.

Section SingleInheritance.
Hypothesis Horder : classes_in_order tbl = true.
Hypothesis Hsingle : NoDup (flatten (__subclasses__ <$> tbl)).

Lemma subclasses_NoDup (c : cls) (ci : pyclass) :
  tbl !! c = Some ci → NoDup (__subclasses__ ci).
Proof.
  intros Hci. apply (NoDup_flatten_lookup _ c _ Hsingle).
  by rewrite list_lookup_fmap, Hci.
Qed.

Lemma unique_parent (c1 c2 : cls) (ci1 ci2 : pyclass) (d : cls) :
  tbl !! c1 = Some ci1 → tbl !! c2 = Some ci2 →
  d ∈ __subclasses__ ci1 → d ∈ __subclasses__ ci2 → c1 = c2.
Proof.
  intros H1 H2 Hd1 Hd2. destruct (decide (c1 = c2)) as [|Hne]; [done |].
  exfalso.
  assert (L1 : (__subclasses__ <$> tbl) !! c1 = Some (__subclasses__ ci1))
    by (by rewrite list_lookup_fmap, H1).
  assert (L2 : (__subclasses__ <$> tbl) !! c2 = Some (__subclasses__ ci2))
    by (by rewrite list_lookup_fmap, H2).
  pose proof (times_flatten_lookup2 d _ c1 c2 _ _ Hne L1 L2).
  pose proof (times_elem d _ Hd1). pose proof (times_elem d _ Hd2).
  pose proof (times_NoDup d _ Hsingle). lia.
Qed.

Lemma abstract_path_le (c : cls) (p : list cls) (x : cls) :
  abstract_path tbl c p x → (c ≤ x)%nat.
Proof.
  induction 1 as [c | c ci d p e Hci Hab Hd Hp IH]; [lia |].
  destruct (classes_in_order_spec tbl c ci d Horder Hci Hd). lia.
Qed.

Lemma abstract_path_nil (c x : cls) : abstract_path tbl c [] x → c = x.
Proof. by inversion 1. Qed.

Lemma abstract_path_snoc_inv (a : cls) (p : list cls) (z x : cls) :
  abstract_path tbl a (p ++ [z]) x →
  z = x ∧ ∃ y cy, abstract_path tbl a p y ∧ tbl !! y = Some cy ∧
                  __abstract__ cy = true ∧ x ∈ __subclasses__ cy.
Proof.
  revert a. induction p as [|d p IH]; intros a Hp; simpl in Hp.
  - inversion Hp as [| ? ci ? ? ? Hci Hab Hd Hrest]; subst.
    apply abstract_path_nil in Hrest as ->.
    split; [done |]. exists a, ci. repeat split; try done. constructor.
  - inversion Hp as [| ? ci ? ? ? Hci Hab Hd Hrest]; subst.
    destruct (IH d Hrest) as (-> & y & cy & Hy & Hcy & Haby & Hx).
    split; [done |]. exists y, cy. repeat split; try done.
    eapply abstract_path_step; eauto.
Qed.

(** With one parent per class, two chains that end in the same class lie on
    one line: one of the starting classes reaches the other. *)
Lemma abstract_paths_in_line (p : list cls) :
  ∀ (a b x : cls) (q : list cls),
    abstract_path tbl a p x → abstract_path tbl b q x →
    (∃ r, abstract_path tbl b r a) ∨ (∃ r, abstract_path tbl a r b).
Proof.
  induction p as [|z p IH] using rev_ind; intros a b x q Hp Hq.
  - apply abstract_path_nil in Hp as ->. eauto.
  - apply abstract_path_snoc_inv in Hp
      as (-> & y & cy & Hy & Hcy & Haby & Hx).
    destruct q as [|z' q _] using rev_ind.
    + apply abstract_path_nil in Hq as ->. right. exists (p ++ [x]).
      eapply abstract_path_snoc; eauto.
    + apply abstract_path_snoc_inv in Hq
        as (-> & y' & cy' & Hy' & Hcy' & Haby' & Hx').
      assert (y = y') as <- by (eapply unique_parent; eauto).
      eapply IH; eauto.
Qed.

Lemma siblings_disjoint (c : cls) (ci : pyclass) (d1 d2 : cls)
    (p q : list cls) (x : cls) :
  tbl !! c = Some ci → d1 ∈ __subclasses__ ci → d2 ∈ __subclasses__ ci →
  d1 ≠ d2 →
  abstract_path tbl d1 p x → abstract_path tbl d2 q x → False.
Proof.
  intros Hci H1 H2 Hne Hp Hq.
  destruct (classes_in_order_spec tbl c ci d1 Horder Hci H1).
  destruct (classes_in_order_spec tbl c ci d2 Horder Hci H2).
  assert (Hup : ∀ d d' r, d ∈ __subclasses__ ci → d' ≠ d → (c < d')%nat →
                          abstract_path tbl d' r d → False).
  { intros d d' r Hd Hdd Hlt Hr.
    destruct r as [|z r _] using rev_ind.
    - apply abstract_path_nil in Hr. done.
    - apply abstract_path_snoc_inv in Hr
        as (-> & y & cy & Hy & Hcy & Haby & Hx).
      assert (y = c) as -> by (eapply unique_parent; eauto).
      apply abstract_path_le in Hy. lia. }
  destruct (abstract_paths_in_line p d1 d2 x q Hp Hq) as [[r Hr] | [r Hr]].
  - exact (Hup d1 d2 r H1 ltac:(congruence) ltac:(lia) Hr).
  - exact (Hup d2 d1 r H2 Hne ltac:(lia) Hr).
Qed.

Lemma get_subclasses_NoDup (n : nat) (c : cls) (l : list cls) :
  get_subclasses tbl n c = Some l → NoDup l.
Proof.
  revert c l. induction n as [|n IH]; intros c l Hl; [discriminate |].
  cbn [get_subclasses] in Hl.
  destruct (tbl !! c) as [ci|] eqn:Hci; [| discriminate].
  destruct (__abstract__ ci) eqn:Hab.
  2: { injection Hl as <-. apply NoDup_singleton. }
  apply fmap_Some in Hl as (ks & Hks & ->). apply mapM_Some in Hks.
  apply NoDup_flatten.
  - intros i y Hy.
    destruct (Forall2_lookup_r _ _ _ i y Hks Hy) as (d & _ & Hdy).
    by eapply IH.
  - intros i j y z x Hij Hy Hz Hxy Hxz.
    destruct (Forall2_lookup_r _ _ _ i y Hks Hy) as (d1 & Hd1 & Hdy).
    destruct (Forall2_lookup_r _ _ _ j z Hks Hz) as (d2 & Hd2 & Hdz).
    assert (d1 ≠ d2).
    { intros <-. apply Hij.
      exact (NoDup_lookup _ i j d1 (subclasses_NoDup c ci Hci) Hd1 Hd2). }
    destruct (get_subclasses_sound tbl n d1 y x Hdy Hxy) as (p & Hp & _).
    destruct (get_subclasses_sound tbl n d2 z x Hdz Hxz) as (q & Hq & _).
    eapply (siblings_disjoint c ci d1 d2 p q x); eauto;
      eapply list_elem_of_lookup_2; eauto.
Qed.

End SingleInheritance.

End Hierarchies.

Section SyncDbMore.
Context (E : env).

(** X14. With the classes created in order, [sync_db] returns normally,
    leaves the state as it is and makes only [sync_table] calls: one on a
    class exactly when the class is concrete and is reached from
    [self.Model] by direct-subclass steps through abstract classes only. It
    needs no bound manager and no connection. *)
Theorem sync_db_discovers (s : state) :
  classes_in_order (classes E) = true →
  (Model (self s) < length (classes E))%nat →
  outcome (sync_db E s) = Ok tt ∧ final (sync_db E s) = s ∧
  ∀ e, e ∈ trace (sync_db E s) ↔
       ∃ x p, e = SyncTable x ∧
              abstract_path (classes E) (Model (self s)) p x ∧
              concrete (classes E) x.
Proof.
  intros Hok Hm. destruct (sync_db_returns E s Hok Hm) as (l & -> & Hl).
  split; [done |]. split; [done |]. intros e. unfold trace; simpl.
  rewrite list_elem_of_fmap. split.
  - intros (x & -> & Hx). apply Hl in Hx as (p & Hp & Hc). eauto.
  - intros (x & p & -> & Hp & Hc). exists x. split; [done |].
    apply Hl. eauto.
Qed.

(** X15. In a hierarchy with single inheritance, where no class is listed as
    a direct subclass twice, discovery returns no class twice, so [sync_db]
    calls [sync_table] at most once per class. *)
Theorem sync_db_single_inheritance (s : state) (x : cls) :
  classes_in_order (classes E) = true →
  NoDup (flatten (__subclasses__ <$> classes E)) →
  (Model (self s) < length (classes E))%nat →
  outcome (sync_db E s) = Ok tt ∧
  (table_syncs x (trace (sync_db E s)) ≤ 1)%nat ∧
  ∃ l, get_subclasses (classes E) (S (length (classes E))) (Model (self s))
       = Some l ∧ NoDup l.
Proof.
  intros Hok Hsingle Hm.
  destruct (get_subclasses_total (classes E) Hok (S (length (classes E)))
              (Model (self s)) Hm ltac:(lia)) as [l Hl].
  pose proof (get_subclasses_NoDup (classes E) Hok Hsingle _ _ _ Hl) as Hnd.
  rewrite (sync_db_eq E s l Hl). unfold outcome, trace; simpl.
  rewrite table_syncs_fmap. split; [done |].
  split; [by apply times_NoDup | eauto].
Qed.

(** X17. When the base is abstract and all its direct subclasses are
    concrete, the usual flat set of models, [sync_db] calls [sync_table] on
    exactly those classes, once each, in the order [__subclasses__()] lists
    them. An abstract base without subclasses gives no call at all. *)
Theorem sync_db_flat (s : state) (ci : pyclass) :
  classes E !! Model (self s) = Some ci → __abstract__ ci = true →
  (∀ d, d ∈ __subclasses__ ci → concrete (classes E) d) →
  sync_db E s = (Ok tt, s, SyncTable <$> __subclasses__ ci).
Proof.
  intros Hci Hab Hall. apply sync_db_eq.
  assert (Hlen : ∃ n, length (classes E) = S n).
  { apply lookup_lt_Some in Hci.
    destruct (length (classes E)); [lia | eauto]. }
  destruct Hlen as [n ->]. by apply get_subclasses_flat.
Qed.

End SyncDbMore.

Section Callbacks.
Context (E : env).

(** X8. After a bind that returned normally, each of the two connect
    callbacks (the one for uWSGI's postfork, the one for Celery's worker and
    beat start), when called, returns normally and opens one more connection
    with exactly the arguments the bind passed to the driver; the manager and
    the registries are untouched. *)
Theorem connect_callbacks_reuse_configuration (a : flask_app) (s : state)
    (f : hook) :
  outcome (init_app E a s) = Ok tt →
  f ≠ cassandra_shutdown_celery →
  let s1 := final (init_app E a s) in
  let r := fire E f s1 in
  ∃ args,
    trace (init_app E a s)
    = shutdown_calls E ++ [ConnectionSetup args (next_handle (drv s))] ∧
    trace r
    = shutdown_calls E ++ [ConnectionSetup args (S (next_handle (drv s)))] ∧
    outcome r = Ok tt ∧
    self (final r) = self s1 ∧ sig (final r) = sig s1 ∧
    conn_cluster (drv (final r)) = Some (S (next_handle (drv s))) ∧
    conn_session (drv (final r)) = Some (S (next_handle (drv s))).
Proof.
  intros Hok Hf s1 r.
  destruct (init_app_ok_inv E a s Hok) as (h & k & H1 & H2 & Hc & Hbag).
  eexists. subst r s1.
  rewrite (init_app_connect_ok E a s h k H1 H2 Hc Hbag).
  split; [reflexivity |].
  change (final (Ok (), ?y, ?t)) with y.
  pose proof (setup_connection_eq E
                {| self := configured a h k (self s);
                   drv := reconnected E (drv s);
                   sig := registered E (sig s) |}
                _ (configured_connect_args a h k (self s)) Hbag) as Hs.
  destruct f; [| | done]; unfold fire; rewrite Hs; done.
Qed.

End Callbacks.

(** * The further properties at concrete inputs *)

Lemma init_app_passes_configuration_witness :
  trace (init_app env_late app_full state_bound)
  = [ClusterShutdown 0; SessionShutdown 0;
     ConnectionSetup
       {| hosts := ["10.0.0.1"; "10.0.0.2"]; default_keyspace := "ks1";
          consistency := 6; lazy_connect := true; retry_connect := true;
          kwargs := [("port", "9042")] |} 1].
Proof.
  exact (proj1 (init_app_passes_configuration env_late app_full state_bound
                  ["10.0.0.1"; "10.0.0.2"] "ks1" eq_refl eq_refl eq_refl)).
Defined.

Lemma init_app_failure_leaves_process_witness :
  outcome (init_app env_late app_no_keyspace_key state_bound)
  = Raise (KeyError "CASSANDRA_KEYSPACE") ∧
  trace (init_app env_late app_no_keyspace_key state_bound) = [] ∧
  drv (final (init_app env_late app_no_keyspace_key state_bound))
  = drv state_bound ∧
  trace (init_app env_late app_colliding state_bound)
  = [ClusterShutdown 0; SessionShutdown 0].
Proof.
  split; [reflexivity |].
  destruct (proj1 (init_app_failure_leaves_process env_late
                     app_no_keyspace_key state_bound
                     (KeyError "CASSANDRA_KEYSPACE") eq_refl)
              (or_intror (ex_intro _ "CASSANDRA_KEYSPACE" eq_refl)))
    as (Ht & Hd & _).
  split; [exact Ht |]. split; [exact Hd |].
  exact (proj1 (proj2 (init_app_failure_leaves_process env_late app_colliding
                         state_bound (TypeError "consistency") eq_refl)
                  "consistency" eq_refl)).
Defined.

Lemma setup_connection_unbound_witness :
  outcome (setup_connection env_late state_unbound)
  = Raise (AttributeError "_hosts_") ∧
  trace (setup_connection env_late state_unbound)
  = [ClusterShutdown 0; SessionShutdown 0].
Proof.
  rewrite (setup_connection_unbound env_late state_unbound eq_refl).
  split; reflexivity.
Defined.

Lemma only_imported_objects_are_released_witness :
  0 ∈ live_clusters
        (drv (run (env_fresh classes_spec)
                [call_shutdown_connection; call_setup_connection;
                 call_hook cassandra_shutdown_celery; call_set_keyspace None;
                 call_sync_db]
                state_bound).1).
Proof.
  apply (only_imported_objects_are_released (env_fresh classes_spec)
           _ state_bound 0 ltac:(discriminate) ltac:(discriminate)).
  assert (H : live_clusters (drv state_bound) = {[0]}) by reflexivity.
  rewrite H. set_solver.
Defined.

Lemma set_keyspace_all_or_nothing_witness :
  ∃ n, final (set_keyspace (Some "other") state_bound)
       = keyspace_assigned n state_bound ∧
       Some "other" = Some n.
Proof.
  destruct (set_keyspace_all_or_nothing (Some "other") state_bound)
    as (_ & [(_ & [H | H]) | (_ & n & Hn & Harg)]);
    [discriminate H | discriminate H |].
  exists n. split; [exact Hn | exact (Harg eq_refl)].
Defined.

Lemma set_keyspace_overrides_witness :
  final (set_keyspace (Some "other")
           (final (set_keyspace (Some "tmp") state_bound)))
  = final (set_keyspace (Some "other") state_bound).
Proof.
  exact (set_keyspace_overrides (Some "tmp") "other" state_bound
           ltac:(discriminate)).
Defined.

Lemma set_keyspace_round_trip_witness :
  final (set_keyspace None
           (final (set_keyspace (Some "other") state_default_keyspace)))
  = state_default_keyspace.
Proof.
  exact (proj2 (set_keyspace_round_trip state_default_keyspace app_ks1
                  "ks1" "other" eq_refl eq_refl eq_refl eq_refl
                  ltac:(discriminate))).
Defined.

Lemma set_keyspace_after_init_app_only_witness :
  outcome (set_keyspace None
             (final ((__init__ (env_fresh classes_spec) None >>
                      init_app (env_fresh classes_spec) app_ks1)
                       state_fresh)))
  = Raise (AttributeError "config") ∧
  outcome (set_keyspace (Some "other")
             (final ((__init__ (env_fresh classes_spec) None >>
                      init_app (env_fresh classes_spec) app_ks1)
                       state_fresh)))
  = Ok tt.
Proof.
  destruct (set_keyspace_after_init_app_only (env_fresh classes_spec)
              app_ks1 state_fresh) as (_ & H1 & H2).
  split.
  - rewrite H1. reflexivity.
  - rewrite (H2 "other" ltac:(discriminate)). reflexivity.
Defined.

Lemma sync_db_discovers_witness :
  SyncTable 3 ∈ trace (sync_db (env_fresh classes_spec) state_fresh).
Proof.
  destruct (sync_db_discovers (env_fresh classes_spec) state_fresh
              eq_refl ltac:(simpl; lia)) as (_ & _ & H).
  apply H. exists 3, [1; 3]. split; [reflexivity |]. split.
  - eapply abstract_path_step;
      [reflexivity | reflexivity | repeat constructor |].
    eapply abstract_path_step;
      [reflexivity | reflexivity | repeat constructor | constructor].
  - eexists. split; reflexivity.
Defined.

Lemma sync_db_single_inheritance_witness :
  (table_syncs 2 (trace (sync_db (env_fresh classes_spec) state_fresh)) ≤ 1)%nat.
Proof.
  assert (Hnd : NoDup (flatten (__subclasses__ <$> classes_spec))).
  { refine (bool_decide_unpack _ _). vm_compute. exact I. }
  exact (proj1 (proj2 (sync_db_single_inheritance (env_fresh classes_spec)
                         state_fresh 2 eq_refl Hnd ltac:(simpl; lia)))).
Defined.

Lemma sync_db_flat_witness :
  sync_db (env_fresh classes_flat) state_fresh
  = (Ok tt, state_fresh, [SyncTable 1; SyncTable 2; SyncTable 3]).
Proof.
  apply (sync_db_flat (env_fresh classes_flat) state_fresh
           (mk_class "Model" true [1; 2; 3]) eq_refl eq_refl).
  intros d Hd. apply list_elem_of_In in Hd. simpl in Hd.
  destruct Hd as [<- | [<- | [<- | []]]]; eexists; split; reflexivity.
Defined.

Lemma connect_callbacks_reuse_configuration_witness :
  outcome (fire env_late cassandra_init_uwsgi
             (final (init_app env_late app_full state_bound)))
  = Ok tt.
Proof.
  destruct (connect_callbacks_reuse_configuration env_late app_full
              state_bound cassandra_init_uwsgi eq_refl ltac:(discriminate))
    as (args & _ & _ & H & _).
  exact H.
Defined.
